(** * detect_goose.py: the detection run, its result sinks and its summary

    A shallow embedding of [run] from [detect_goose.py] (a YOLOv5 [detect.py]
    that also reports per-class counts as JSON), and the properties of its
    source classifier, result sinks, video writer registry and run summary.

    Conventions of the embedding.
    - A Python [str] is a [string] whose characters are read as code points
      below 256; [isnumeric] and [lower] follow Python on that range.
    - [pathlib.Path] is the POSIX flavour ([/] separates components).
    - Python floats (coordinates, confidences, frame rates, timers) are
      rationals.
    - Everything [run] mutates (files, windows, writers, its own locals) lives
      in one [State]; a computation maps a state to an outcome and a state, so
      that what was written before an exception is still there after it. *)

From Stdlib Require Import Ascii String QArith Qround.
From stdpp Require Import gmap strings list sorting pretty.

Local Open Scope string_scope.
Local Open Scope Z_scope.
Local Open Scope list_scope.

(** ** Python strings *)

Module Str.

(** [s.startswith(p)] *)
Fixpoint startswith (s p : string) : bool :=
  match p, s with
  | "", _ => true
  | String _ _, "" => false
  | String a p', String b s' => if Ascii.eqb a b then startswith s' p' else false
  end.

(** [s.endswith(p)]: [s] is [p], or what follows its first character ends
    with [p]. *)
Fixpoint endswith (s p : string) : bool :=
  if String.eqb s p then true
  else match s with
       | "" => false
       | String _ s' => endswith s' p
       end.

(** [s.startswith((p1, p2, ...))] *)
Definition startswith_any (s : string) (ps : list string) : bool :=
  existsb (startswith s) ps.

Definition code (c : ascii) : N := N_of_ascii c.

(** [c.lower()] for one code point below 256: the ASCII capitals and the
    Latin-1 capitals U+00C0..U+00DE (the multiplication sign U+00D7 is no
    letter) move up by 32. *)
Definition lower_char (c : ascii) : ascii :=
  let n := code c in
  if ((65 <=? n) && (n <=? 90) || (192 <=? n) && (n <=? 222) && negb (n =? 215))%N
  then ascii_of_N (n + 32) else c.

Fixpoint lower (s : string) : string :=
  match s with
  | "" => ""
  | String c s' => String (lower_char c) (lower s')
  end.

(** The code points below 256 with a Unicode numeric value: the ten digits,
    the superscripts one, two, three and the three vulgar fractions. *)
Definition numeric_char (c : ascii) : bool :=
  let n := code c in
  ((48 <=? n) && (n <=? 57) || (n =? 178) || (n =? 179) || (n =? 185)
   || (188 <=? n) && (n <=? 190))%N.

Fixpoint all_chars (f : ascii → bool) (s : string) : bool :=
  match s with
  | "" => true
  | String c s' => f c && all_chars f s'
  end.

(** [s.isnumeric()]: at least one character, all of them numeric. *)
Definition isnumeric (s : string) : bool :=
  match s with
  | "" => false
  | _ => all_chars numeric_char s
  end.

(** [s.split(sep)] for a one-character separator. *)
Fixpoint split (sep : ascii) (s : string) : list string :=
  match s with
  | "" => [""]
  | String c s' =>
      if Ascii.eqb c sep then "" :: split sep s'
      else match split sep s' with
           | w :: ws => String c w :: ws
           | [] => [String c ""]
           end
  end.

(** [s.rfind(c)], with [None] for Python's -1. *)
Fixpoint rfind (c : ascii) (s : string) : option nat :=
  match s with
  | "" => None
  | String a s' =>
      match rfind c s' with
      | Some i => Some (S i)
      | None => if Ascii.eqb a c then Some 0%nat else None
      end
  end.

(** [s[i:]] and [s[:i]] *)
Fixpoint drop (i : nat) (s : string) : string :=
  match i, s with
  | O, _ => s
  | S i', String _ s' => drop i' s'
  | S _, "" => ""
  end.

Fixpoint take (i : nat) (s : string) : string :=
  match i, s with
  | O, _ => ""
  | S i', String c s' => String c (take i' s')
  | S _, "" => ""
  end.

(** ["sep".join(l)] *)
Fixpoint join (sep : string) (l : list string) : string :=
  match l with
  | [] => ""
  | [x] => x
  | x :: l' => x +:+ sep +:+ join sep l'
  end.

End Str.

(** ** pathlib and os.path, POSIX flavour *)

Module Path.

(** The components of a path: what lies between slashes, without the empty
    and the [.] components. *)
Definition parts (p : string) : list string :=
  filter (λ x, x ≠ "" ∧ x ≠ ".") (Str.split "/" p).

(** [Path(p).name]: the last component, empty when there is none. *)
Definition name (p : string) : string := List.last (parts p) "".

(** The position that splits a name into stem and suffix: the last dot, when
    it is neither the first nor the last character of the name. *)
Definition suffix_at (nm : string) : option nat :=
  match Str.rfind "." nm with
  | Some i => if ((0 <? i) && (i <? String.length nm - 1))%nat then Some i else None
  | None => None
  end.

(** [Path(p).suffix] *)
Definition suffix (p : string) : string :=
  match suffix_at (name p) with
  | Some i => Str.drop i (name p)
  | None => ""
  end.

(** [Path(p).stem] *)
Definition stem (p : string) : string :=
  match suffix_at (name p) with
  | Some i => Str.take i (name p)
  | None => name p
  end.

(** [str(Path(d) / c)] for a directory [d] already in normal form and a
    relative component [c]; an empty component adds nothing. *)
Definition join (d c : string) : string :=
  if bool_decide (c = "") then d else d +:+ "/" +:+ c.

(** [str(Path(p).with_suffix(sfx))] for a path [p] in normal form whose name
    is not empty. *)
Definition with_suffix (p sfx : string) : string :=
  Str.take (String.length p - String.length (suffix p)) p +:+ sfx.

(** The loop of [os.path.normpath] over the components: [..] cancels the
    component before it, stays when there is none to cancel in a relative
    path, and is dropped at the root. *)
Fixpoint norm_comps (rooted : bool) (acc : list string) (comps : list string)
  : list string :=
  match comps with
  | [] => rev acc
  | c :: comps' =>
      if bool_decide (c = "" ∨ c = ".") then norm_comps rooted acc comps'
      else if bool_decide (c ≠ "..")
              || (negb rooted && bool_decide (acc = []))
              || bool_decide (hd_error acc = Some "..")
      then norm_comps rooted (c :: acc) comps'
      else norm_comps rooted (tl acc) comps'
  end.

(** [os.path.normpath] *)
Definition normpath (p : string) : string :=
  if bool_decide (p = "") then "."
  else
    let initial_slashes :=
      if Str.startswith p "/" then
        if Str.startswith p "//" && negb (Str.startswith p "///") then "//" else "/"
      else "" in
    let rooted := Str.startswith p "/" in
    let path := initial_slashes +:+ Str.join "/" (norm_comps rooted [] (Str.split "/" p)) in
    if bool_decide (path = "") then "." else path.

(** [os.path.abspath], with the working directory made explicit. *)
Definition abspath (cwd p : string) : string :=
  if Str.startswith p "/" then normpath p
  else normpath (if bool_decide (cwd = "") || Str.endswith cwd "/" then cwd +:+ p
               else cwd +:+ "/" +:+ p).

End Path.


(** [str(Path(p))]: the root, then the components joined by slashes. *)
Definition path_str (p : string) : string :=
  let root :=
    if Str.startswith p "/" then
      if Str.startswith p "//" && negb (Str.startswith p "///") then "//" else "/"
    else "" in
  let body := root +:+ Str.join "/" (Path.parts p) in
  if bool_decide (body = "") then "." else body.

(** ** Numbers and their formatting *)

(** [int(x)] of a float: truncation towards zero. *)
Definition int_of (q : Q) : Z := Z.quot (Qnum q) (Z.pos (Qden q)).

(** Rounding to the nearest integer, ties to the even one, as [torch.round]
    and as float formatting do. *)
Definition round_half_even (q : Q) : Z :=
  let f := Qfloor q in
  match Qcompare (q - inject_Z f) (1 # 2) with
  | Lt => f
  | Gt => f + 1
  | Eq => if Z.even f then f else f + 1
  end.

(** [f"{x:.2f}"]: the sign, the integer part, a dot and two decimals. *)
Definition format_2f (q : Q) : string :=
  let n := Z.abs (round_half_even (q * inject_Z 100)) in
  let cents := n mod 100 in
  (if Qlt_le_dec q 0 then "-" else "")
  +:+ pretty (n / 100) +:+ "."
  +:+ (if cents <? 10 then "0" else "") +:+ pretty cents.

(** ** Data model *)

(** An entry of the list [gNum], as [json.dumps] sees it: the integer it was
    initialised with, or the string assigned to it. *)
Inductive jval :=
| JInt (n : Z)
| JStr (s : string).

(** The dictionary given to [json.dumps]. *)
Record Summary := { imagePath : string; counts : list jval }.

(** A box in corner form [x1, y1, x2, y2]. *)
Record Box := { bx1 : Q; by1 : Q; bx2 : Q; by2 : Q }.

Definition box_list (b : Box) : list Q := [bx1 b; by1 b; bx2 b; by2 b].

(** One row of a suppressed prediction: [*xyxy, conf, cls]. *)
Record Detection := { box : Box; conf : Q; cls : nat }.

(** [annotator.box_label(xyxy, label, color=colors(c, True))]: the box, its
    label and the class whose palette entry colours it. *)
Record Drawing := { dr_box : Box; dr_label : option string; dr_class : nat }.

(** An image: its shape, an identity for its pixels as decoded, and what has
    been drawn over them since, oldest first. *)
Record Image := {
  im_height : Z;
  im_width : Z;
  im_pixels : nat;
  im_drawn : list Drawing
}.

(** A [cv2.VideoCapture] as far as [run] reads it. *)
Record Capture := { cap_fps : Q; cap_width : Q; cap_height : Q }.

(** [dataset.mode] *)
Inductive DataMode := ModeImage | ModeVideo | ModeStream.

Global Instance DataMode_eq_dec : EqDecision DataMode.
Proof. solve_decision. Defined.

(** What a loader yields as [path] and [im0s]: one entry per stream for the
    stream loader, one path and one image for the other two. *)
Inductive Originals :=
| Batch (paths : list string) (im0s : list Image)
| Single (path : string) (im0 : Image).

(** One item of a dataset, [(path, im, im0s, vid_cap, s)], with the loader
    attributes [run] reads at that time: [dataset.mode], and [dataset.count]
    or [dataset.frame]. The array [im] is known by an identity only: nothing
    but the model reads it. The string [s] is only ever logged, and the
    logging is commented out. *)
Record Frame := {
  f_originals : Originals;
  f_im : nat;
  f_vid_cap : option Capture;
  f_mode : DataMode;
  f_count : nat
}.

Record Dataset := { ds_len : nat; ds_frames : list Frame }.

(** Lines of the text files [run] appends to. *)
Inductive Line :=
| CsvRow (fields : list string)
| LabelLine (c : nat) (coords : list Q) (confidence : option Q).

(** Calls into OpenCV and the other libraries, as they happen. A video writer
    is named by the handle its constructor call returned. *)
Inductive Call :=
| Imwrite (path : string) (im : Image)
| NamedWindow (win : string)
| ResizeWindow (win : string) (w h : Z)
| Imshow (win : string) (im : Image)
| WaitKey
| SaveOneBox (b : Box) (im : Image) (file : string)
| VideoWriterNew (h : nat) (path : string) (fps : Q) (w h' : Z)
| VideoWriterRelease (h : nat)
| VideoWriterWrite (h : nat) (im : Image)
| StripOptimizer.

Inductive exn :=
| ZeroDivisionError
| IndexError
| AttributeError
| TypeError
| External (what : string).

Inductive outcome (A : Type) :=
| Ok (a : A)
| Raised (e : exn).
Arguments Ok {A} a.
Arguments Raised {A} e.

(** The files, the library calls and the standard output of the process, and
    the locals of [run] that live across frames. *)
Record State := {
  fs : gmap string (list Line);
  calls : list Call;
  stdout : list Summary;
  seen : nat;
  windows : list string;
  gNum : list jval;
  vid_path : list (option string);
  vid_writer : list (option nat);
  annotator : Image
}.

Definition blank : Image :=
  {| im_height := 0; im_width := 0; im_pixels := 0; im_drawn := [] |}.

(** A fresh process in a run directory without files. *)
Definition initial : State :=
  {| fs := ∅; calls := []; stdout := []; seen := 0; windows := [];
     gNum := []; vid_path := []; vid_writer := []; annotator := blank |}.

(** ** Computations: state passing with exceptions *)

Definition M (A : Type) : Type := State → outcome A * State.

Global Instance M_ret : MRet M := λ A a s, (Ok a, s).
Global Instance M_bind : MBind M := λ A B f m s,
  match m s with
  | (Ok a, s') => f a s'
  | (Raised e, s') => (Raised e, s')
  end.

Definition raise {A} (e : exn) : M A := λ s, (Raised e, s).
Definition gets {A} (f : State → A) : M A := λ s, (Ok (f s), s).
Definition modify (f : State → State) : M unit := λ s, (Ok tt, f s).
Definition lift {A} (o : outcome A) : M A := λ s, (o, s).
Definition when (b : bool) (m : M unit) : M unit := if b then m else mret tt.

(** [for x in l: body(x)] *)
Fixpoint for_each {A} (l : list A) (body : A → M unit) : M unit :=
  match l with
  | [] => mret tt
  | x :: l' => body x ≫= λ _, for_each l' body
  end.

(** [l[i]] *)
Definition index {A} (l : list A) (i : nat) : M A :=
  match l !! i with
  | Some x => mret x
  | None => raise IndexError
  end.

Definition set_fs (f : gmap string (list Line) → gmap string (list Line)) (s : State) : State :=
  {| fs := f (fs s); calls := calls s; stdout := stdout s; seen := seen s;
     windows := windows s; gNum := gNum s; vid_path := vid_path s;
     vid_writer := vid_writer s; annotator := annotator s |}.
Definition set_calls (f : list Call → list Call) (s : State) : State :=
  {| fs := fs s; calls := f (calls s); stdout := stdout s; seen := seen s;
     windows := windows s; gNum := gNum s; vid_path := vid_path s;
     vid_writer := vid_writer s; annotator := annotator s |}.
Definition set_stdout (f : list Summary → list Summary) (s : State) : State :=
  {| fs := fs s; calls := calls s; stdout := f (stdout s); seen := seen s;
     windows := windows s; gNum := gNum s; vid_path := vid_path s;
     vid_writer := vid_writer s; annotator := annotator s |}.
Definition set_seen (f : nat → nat) (s : State) : State :=
  {| fs := fs s; calls := calls s; stdout := stdout s; seen := f (seen s);
     windows := windows s; gNum := gNum s; vid_path := vid_path s;
     vid_writer := vid_writer s; annotator := annotator s |}.
Definition set_windows (f : list string → list string) (s : State) : State :=
  {| fs := fs s; calls := calls s; stdout := stdout s; seen := seen s;
     windows := f (windows s); gNum := gNum s; vid_path := vid_path s;
     vid_writer := vid_writer s; annotator := annotator s |}.
Definition set_gNum (f : list jval → list jval) (s : State) : State :=
  {| fs := fs s; calls := calls s; stdout := stdout s; seen := seen s;
     windows := windows s; gNum := f (gNum s); vid_path := vid_path s;
     vid_writer := vid_writer s; annotator := annotator s |}.
Definition set_vid_path (f : list (option string) → list (option string)) (s : State) : State :=
  {| fs := fs s; calls := calls s; stdout := stdout s; seen := seen s;
     windows := windows s; gNum := gNum s; vid_path := f (vid_path s);
     vid_writer := vid_writer s; annotator := annotator s |}.
Definition set_vid_writer (f : list (option nat) → list (option nat)) (s : State) : State :=
  {| fs := fs s; calls := calls s; stdout := stdout s; seen := seen s;
     windows := windows s; gNum := gNum s; vid_path := vid_path s;
     vid_writer := f (vid_writer s); annotator := annotator s |}.
Definition set_annotator (f : Image → Image) (s : State) : State :=
  {| fs := fs s; calls := calls s; stdout := stdout s; seen := seen s;
     windows := windows s; gNum := gNum s; vid_path := vid_path s;
     vid_writer := vid_writer s; annotator := f (annotator s) |}.

(** A library call, logged. *)
Definition call (c : Call) : M unit := modify (set_calls (λ l, l ++ [c])).

(** ** The arguments of [run] and what it imports *)

(** The arguments that the code of [run] itself reads. The others (weights,
    sizes, thresholds, device) only reach the model and the loaders. *)
Record Options := {
  source : string;
  view_img : bool;
  save_txt : bool;
  save_format : Z;
  save_csv : bool;
  save_conf : bool;
  save_crop : bool;
  nosave : bool;
  update : bool;
  hide_labels : bool;
  hide_conf : bool
}.

(** What [run] takes from [utils], [models] and the platform, for a run whose
    model loaded: the format tables, the download of a file URL, the run
    directory [increment_path] chose (a path in normal form, with a name),
    the working directory, the class names of the model by class index,
    whether a window can be shown, whether the platform is Linux, the three
    loaders, the three timed phases (conversion to a tensor, forward pass in
    either of its two forms, suppression), the shape [im.shape[2:]] of a
    tensor, the box transforms and the seconds the three timers hold when
    the loop ends. A phase that raises is a phase that returns [Raised]. *)
Record Env := {
  IMG_FORMATS : list string;
  VID_FORMATS : list string;
  check_file : string → outcome string;
  save_dir : string;
  cwd : string;
  names : list string;
  check_imshow : bool;
  is_linux : bool;
  LoadStreams : string → outcome Dataset;
  LoadScreenshots : string → outcome Dataset;
  LoadImages : string → outcome Dataset;
  Tensor : Type;
  Raw : Type;
  preprocess : Frame → outcome Tensor;
  im_shape : Tensor → Z * Z;
  forward : Tensor → outcome Raw;
  non_max_suppression : Raw → outcome (list (list Detection));
  scale_boxes : Z * Z → Box → Z * Z → Box;
  xyxy2xywh : list Q → list Q;
  timers : Q * Q * Q
}.

(** Which loader [run] builds its dataset with. *)
Inductive Loader := Streams | Screenshots | Images.

Global Instance Loader_eq_dec : EqDecision Loader.
Proof. solve_decision. Defined.

Section Detect.
Context (E : Env) (o : Options).

(** *** Source classification (lines 152-159 and 173-180) *)

Definition is_file (src : string) : bool :=
  bool_decide (Str.drop 1 (Path.suffix src) ∈ IMG_FORMATS E ++ VID_FORMATS E).

Definition url_schemes : list string := ["rtsp://"; "rtmp://"; "http://"; "https://"].

Definition is_url (src : string) : bool :=
  Str.startswith_any (Str.lower src) url_schemes.

Definition webcam (src : string) : bool :=
  Str.isnumeric src || Str.endswith src ".streams" || (is_url src && negb (is_file src)).

Definition screenshot (src : string) : bool :=
  Str.startswith (Str.lower src) "screen".

(** The [if webcam / elif screenshot / else] that picks the loader. *)
Definition loader (src : string) : Loader :=
  if webcam src then Streams
  else if screenshot src then Screenshots
  else Images.

(** *** Text files *)

(** [open(path, "a")]: the file exists from then on. *)
Definition open_append (path : string) : M unit :=
  modify (set_fs (λ m, match m !! path with Some _ => m | None => <[path := []]> m end)).

(** [path.is_file()] *)
Definition path_is_file (path : string) : M bool :=
  gets (λ s, bool_decide (is_Some (fs s !! path))).

(** A line written through a file opened at [path]. *)
Definition write_line (path : string) (l : Line) : M unit :=
  modify (set_fs (λ m, <[path := default [] (m !! path) ++ [l]]> m)).

(** [with open(path, "a") as f: f.write(l)] *)
Definition append_line (path : string) (l : Line) : M unit :=
  open_append path ;; write_line path l.

Definition csv_path : string := Path.join (save_dir E) "predictions.csv".

(** [write_to_csv] (lines 221-228): the file is opened for appending, and only
    then is its existence tested. *)
Definition write_to_csv (image_name prediction confidence : string) : M unit :=
  let data := [("Image Name", image_name); ("Prediction", prediction);
               ("Confidence", confidence)] in
  open_append csv_path ;;
  there ← path_is_file csv_path;
  when (negb there) (write_line csv_path (CsvRow data.*1)) ;;
  write_line csv_path (CsvRow data.*2).

(** *** Class counts (lines 250-254) *)

(** [t.unique()]: the distinct values, ascending. *)
Definition unique (l : list nat) : list nat := remove_dups (merge_sort (≤)%nat l).

(** [(det[:, 5] == c).sum()] *)
Definition count_class (c : nat) (det : list Detection) : nat :=
  length (filter (λ d, cls d = c) det).

(** [gNum[c] = v] *)
Definition gNum_set (c : nat) (v : jval) : M unit :=
  g ← gets gNum;
  if bool_decide (c < length g)%nat then modify (set_gNum <[c := v]>)
  else raise IndexError.

Definition count_classes (det : list Detection) : M unit :=
  for_each (unique (cls <$> det)) (λ c,
    let n := count_class c det in
    gNum_set c (JStr (pretty n)) ;;
    _ ← index (names E) c;
    mret tt).

(** *** The steps for one detection (lines 258-284) *)

(** [annotator.box_label]: one more box on the image. *)
Definition box_label (b : Box) (label : option string) (c : nat) (im : Image) : Image :=
  {| im_height := im_height im; im_width := im_width im; im_pixels := im_pixels im;
     im_drawn := im_drawn im ++ [{| dr_box := b; dr_label := label; dr_class := c |}] |}.

(** The coordinates of a label line: centre and size, or corners, divided by
    the gain. *)
Definition label_coords (gn : list Q) (d : Detection) : list Q :=
  if save_format o =? 0 then zip_with Qdiv (xyxy2xywh E (box_list (box d))) gn
  else zip_with Qdiv (box_list (box d)) gn.

Definition crop_file (p : string) (label : string) : string :=
  Path.join (Path.join (Path.join (save_dir E) "crops") label) (Path.stem p +:+ ".jpg").

Definition write_detection (p txt_path : string) (gn : list Q) (imc : Image)
    (view save_img : bool) (d : Detection) : M unit :=
  let c := cls d in
  label ← index (names E) c;
  let confidence_str := format_2f (conf d) in
  when (save_csv o) (write_to_csv (Path.name p) label confidence_str) ;;
  when (save_txt o)
    (let line := LabelLine c (label_coords gn d)
                   (if save_conf o then Some (conf d) else None) in
     append_line (txt_path +:+ ".txt") line) ;;
  when (save_img || save_crop o || view)
    (let text := if hide_labels o then None
                 else Some (if hide_conf o then label
                            else label +:+ " " +:+ format_2f (conf d)) in
     modify (set_annotator (box_label (box d) text c))) ;;
  when (save_crop o) (call (SaveOneBox (box d) imc (crop_file p label))).

(** *** The video writer registry (lines 300-313) *)

(** [fps, w, h]: from the capture handle, or 30 and the shape of the image. *)
Definition writer_settings (vid_cap : option Capture) (im0 : Image) : Q * Z * Z :=
  match vid_cap with
  | Some cap => (cap_fps cap, int_of (cap_width cap), int_of (cap_height cap))
  | None => (inject_Z 30, im_width im0, im_height im0)
  end.

(** The handle of a new writer is the position of its constructor call in
    the log. Writing through an empty slot would be an attribute error on
    [None]. *)
Definition save_video (i : nat) (save_path : string) (vid_cap : option Capture)
    (im0 : Image) : M unit :=
  stored ← gets vid_path ≫= λ l, index l i;
  when (bool_decide (stored ≠ Some save_path))
    (modify (set_vid_path <[i := Some save_path]>) ;;
     old ← gets vid_writer ≫= λ l, index l i;
     match old with
     | Some h => call (VideoWriterRelease h)
     | None => mret tt
     end ;;
     let '(fps, w, h) := writer_settings vid_cap im0 in
     let mp4 := Path.with_suffix save_path ".mp4" in
     new ← gets (λ s, length (calls s));
     call (VideoWriterNew new mp4 fps w h) ;;
     modify (set_vid_writer <[i := Some new]>)) ;;
  cur ← gets vid_writer ≫= λ l, index l i;
  match cur with
  | Some h => call (VideoWriterWrite h im0)
  | None => raise AttributeError
  end.

(** *** One image of a batch (lines 231-313) *)

(** [scale_boxes(im.shape[2:], det[:, :4], im0.shape).round()], row by row. *)
Definition round_box (b : Box) : Box :=
  {| bx1 := inject_Z (round_half_even (bx1 b)); by1 := inject_Z (round_half_even (by1 b));
     bx2 := inject_Z (round_half_even (bx2 b)); by2 := inject_Z (round_half_even (by2 b)) |}.

Definition rescale (from to : Z * Z) (d : Detection) : Detection :=
  {| box := round_box (scale_boxes E from (box d) to); conf := conf d; cls := cls d |}.

(** [path[i], im0s[i]] for the stream loader, [path, im0s] for the other two;
    each loader yields its own form. *)
Definition original (is_webcam : bool) (fr : Frame) (i : nat) : M (string * Image) :=
  match f_originals fr with
  | Batch paths im0s =>
      if is_webcam then p ← index paths i; im0 ← index im0s i; mret (p, im0)
      else raise TypeError
  | Single path im0 => if is_webcam then raise TypeError else mret (path, im0)
  end.

(** The display of the annotated image (lines 288-294). *)
Definition show (p : string) (im0 : Image) : M unit :=
  ws ← gets windows;
  when (is_linux E && bool_decide (p ∉ ws))
    (modify (set_windows (λ l, l ++ [p])) ;;
     call (NamedWindow p) ;;
     call (ResizeWindow p (im_width im0) (im_height im0))) ;;
  call (Imshow p im0) ;;
  call WaitKey.

(** The loop over [reversed(det)] (line 258). *)
Definition write_results (p txt_path : string) (gn : list Q) (imc : Image)
    (view save_img : bool) (det : list Detection) : M unit :=
  for_each (reverse det) (write_detection p txt_path gn imc view save_img).

(** Display and saving of the annotated image (lines 286-313). *)
Definition persist (view save_img : bool) (fr : Frame) (i : nat) (p : string)
    (im0 : Image) : M unit :=
  let save_path := Path.join (save_dir E) (Path.name p) in
  when view (show p im0) ;;
  when save_img
    (if bool_decide (f_mode fr = ModeImage) then call (Imwrite save_path im0)
     else save_video i save_path (f_vid_cap fr) im0).

Definition txt_path_of (fr : Frame) (p : string) : string :=
  Path.join (Path.join (save_dir E) "labels") (Path.stem p)
  +:+ (if bool_decide (f_mode fr = ModeImage) then "" else "_" +:+ pretty (f_count fr)).

(** [gn]: width, height, width, height of the original image. *)
Definition gain (im0 : Image) : list Q :=
  inject_Z <$> [im_width im0; im_height im0; im_width im0; im_height im0].

Definition process_image (is_webcam view save_img : bool) (fr : Frame)
    (im : Tensor E) (i : nat) (det : list Detection) : M unit :=
  modify (set_seen S) ;;
  '(raw_p, im0) ← original is_webcam fr i;
  let p := path_str raw_p in
  let imc := im0 in
  modify (set_annotator (λ _, im0)) ;;
  when (bool_decide (det ≠ []))
    (let det := rescale (im_shape E im) (im_height im0, im_width im0) <$> det in
     count_classes det ;;
     write_results p (txt_path_of fr p) (gain im0) imc view save_img det) ;;
  im0 ← gets annotator;
  persist view save_img fr i p im0.

(** *** One item of the dataset (lines 187-313) *)

Definition run_frame (is_webcam view save_img : bool) (fr : Frame) : M unit :=
  im ← lift (preprocess E fr);
  raw ← lift (forward E im);
  pred ← lift (non_max_suppression E raw);
  for_each (imap pair pred) (λ '(i, det), process_image is_webcam view save_img fr im i det).

(** *** The run (lines 152-186 and 318-333) *)

(** [x / seen]: Python raises on a zero divisor. *)
Definition py_div (x : Q) (n : nat) : M Q :=
  if bool_decide (n = 0%nat) then raise ZeroDivisionError
  else mret (x / inject_Z (Z.of_nat n))%Q.

(** [tuple(x.t / seen * 1e3 for x in dt)] *)
Definition speeds (n : nat) : M (Q * Q * Q) :=
  let '(t0, t1, t2) := timers E in
  a ← py_div t0 n; b ← py_div t1 n; c ← py_div t2 n;
  mret (a * inject_Z 1000, b * inject_Z 1000, c * inject_Z 1000)%Q.

(** The descriptor after the download of a file URL (lines 158-159). *)
Definition resolve_source : outcome string :=
  if is_url (source o) && is_file (source o) then check_file E (source o)
  else Ok (source o).

(** The dataset, from the loader the flags of the descriptor select. *)
Definition load_dataset (src : string) : outcome Dataset :=
  match loader (source o) with
  | Streams => LoadStreams E src
  | Screenshots => LoadScreenshots E src
  | Images => LoadImages E src
  end.

Definition save_img_flag : bool :=
  negb (nosave o) && negb (Str.endswith (source o) ".txt").

Definition view_flag : bool :=
  if webcam (source o) then check_imshow E else view_img o.

(** Everything before the loop (lines 152-186). *)
Definition start : M Dataset :=
  src ← lift resolve_source;
  dataset ← lift (load_dataset src);
  let bs := if webcam (source o) then ds_len dataset else 1%nat in
  modify (set_vid_path (λ _, replicate bs None)) ;;
  modify (set_vid_writer (λ _, replicate bs None)) ;;
  modify (set_seen (λ _, 0%nat)) ;;
  modify (set_windows (λ _, [])) ;;
  modify (set_gNum (λ _, [JInt 0; JInt 0; JInt 0])) ;;
  mret dataset.

(** The loop over the dataset (lines 187-313). *)
Definition frames_loop (frames : list Frame) : M unit :=
  for_each frames (run_frame (webcam (source o)) view_flag save_img_flag).

(** Everything after the loop (lines 318-333). *)
Definition finish : M unit :=
  n ← gets seen;
  _ ← speeds n;
  when (update o) (call StripOptimizer) ;;
  let save_dir_abs := Path.abspath (cwd E) (save_dir E) in
  g ← gets gNum;
  modify (set_stdout (λ l, l ++ [{| imagePath := save_dir_abs; counts := g |}])).

Definition run : M unit :=
  dataset ← start;
  frames_loop (ds_frames dataset) ;;
  finish.

End Detect.

(** ** Reading the log of library calls *)





(** The release of the writer a registry slot holds, if it holds one. *)
Definition release_of (slot : option nat) : list Call :=
  match slot with
  | Some h => [VideoWriterRelease h]
  | None => []
  end.

(** ** The classifier as the specification words it *)

Definition has_suffix (s p : string) : Prop := ∃ r, s = r +:+ p.






(** ** What one detection sends to each sink *)

Definition name_of (E : Env) (d : Detection) : string := default "" (names E !! cls d).

Definition csv_row (E : Env) (p : string) (d : Detection) : Line :=
  CsvRow [Path.name p; name_of E d; format_2f (conf d)].

Definition label_line (E : Env) (o : Options) (gn : list Q) (d : Detection) : Line :=
  LabelLine (cls d) (label_coords E o gn d) (if save_conf o then Some (conf d) else None).

Definition drawing_of (E : Env) (o : Options) (d : Detection) : Drawing :=
  {| dr_box := box d;
     dr_label := if hide_labels o then None
                 else Some (if hide_conf o then name_of E d
                            else name_of E d +:+ " " +:+ format_2f (conf d));
     dr_class := cls d |}.

Definition crop_call (E : Env) (p : string) (imc : Image) (d : Detection) : Call :=
  SaveOneBox (box d) imc (crop_file E p (name_of E d)).

(** ** A sample environment *)

Module Sample.

Definition picture : Image :=
  {| im_height := 480; im_width := 640; im_pixels := 1; im_drawn := [] |}.

Definition whole (n : Z) : Q := inject_Z n.

Definition goose : Detection :=
  {| box := {| bx1 := whole 10; by1 := whole 20; bx2 := whole 110; by2 := whole 220 |};
     conf := 91 # 100; cls := 0 |}.

Definition egg : Detection :=
  {| box := {| bx1 := whole 300; by1 := whole 40; bx2 := whole 340; by2 := whole 90 |};
     conf := 77 # 100; cls := 1 |}.

Definition photo (id : nat) (path : string) : Frame :=
  {| f_originals := Single path (
       {| im_height := 480; im_width := 640; im_pixels := id; im_drawn := [] |});
     f_im := id; f_vid_cap := None; f_mode := ModeImage; f_count := 0 |}.

Definition camera : Capture := {| cap_fps := 25 # 1; cap_width := 640 # 1; cap_height := 480 # 1 |}.

Definition film (n : nat) : Frame :=
  {| f_originals := Single "clips/pond.avi" (
       {| im_height := 480; im_width := 640; im_pixels := n; im_drawn := [] |});
     f_im := n; f_vid_cap := Some camera; f_mode := ModeVideo; f_count := n |}.

(** An environment over a fixed dataset: the model has the classes
    [class_names] and answers each frame with the detections [detect] gives
    for it, or fails in its forward pass when [detect] fails; boxes are
    already at the size of the original. *)
Definition env (class_names : list string) (frames : list Frame)
    (detect : Frame → outcome (list (list Detection))) : Env :=
  {| IMG_FORMATS := ["bmp"; "dng"; "jpeg"; "jpg"; "mpo"; "png"; "tif"; "tiff"; "webp"; "pfm"];
     VID_FORMATS := ["asf"; "avi"; "gif"; "m4v"; "mkv"; "mov"; "mp4"; "mpeg"; "mpg"; "ts"; "wmv"];
     check_file := Ok;
     save_dir := "temp/output";
     cwd := "/home/farm";
     names := class_names;
     check_imshow := false;
     is_linux := true;
     LoadStreams := λ _, Ok {| ds_len := 1; ds_frames := frames |};
     LoadScreenshots := λ _, Ok {| ds_len := 1; ds_frames := frames |};
     LoadImages := λ _, Ok {| ds_len := 1; ds_frames := frames |};
     Tensor := Frame;
     Raw := Frame;
     preprocess := Ok;
     im_shape := λ _, (640, 640);
     forward := λ fr, match detect fr with Ok _ => Ok fr | Raised e => Raised e end;
     non_max_suppression := detect;
     scale_boxes := λ _ b _, b;
     xyxy2xywh := λ l, l;
     timers := (1 # 10, 2 # 10, 1 # 100)%Q |}.

Definition options (src : string) (csv : bool) : Options :=
  {| source := src; view_img := false; save_txt := false; save_format := 0;
     save_csv := csv; save_conf := false; save_crop := false; nosave := false;
     update := false; hide_labels := false; hide_conf := false |}.

Definition pond : string := "gooseANDegg/pond.jpg".

(** One photograph with one goose, for a model of two classes. *)
Definition one_photo : Env := env ["goose"; "egg"] [photo 1 pond] (λ _, Ok [[goose]]).

Definition photo_options : Options := options pond true.

(** A video of two frames, each with a goose and an egg. *)
Definition one_clip : Env :=
  env ["goose"; "egg"] [film 1; film 2] (λ _, Ok [[goose; egg]]).

Definition clip_options : Options := options "clips/pond.avi" false.

(** A source that yields nothing. *)
Definition no_frames : Env := env ["goose"; "egg"] [] (λ _, Ok []).


(** A table that already holds counts of an earlier image. *)
Definition counted : State := set_gNum (λ _, [JStr "4"; JInt 0; JStr "9"]) initial.


End Sample.

(** ** Vocabulary of the properties *)

(** The calls that open or close a video writer. *)
Definition touches_registry (c : Call) : bool :=
  match c with
  | VideoWriterNew _ _ _ _ _ | VideoWriterRelease _ => true
  | _ => false
  end.

(** A computation keeps a property of the state, whatever its outcome. *)
Definition preserves {A} (I : State → Prop) (m : M A) : Prop :=
  ∀ s, I s → I (m s).2.

(** A property of the state that the sinks cannot disturb: it survives any
    change of the files, of the image counter, of the windows, of the image
    under annotation, and any call that opens or closes no writer. *)
Record basic (I : State → Prop) : Prop := {
  basic_fs : ∀ f s, I s → I (set_fs f s);
  basic_seen : ∀ f s, I s → I (set_seen f s);
  basic_windows : ∀ f s, I s → I (set_windows f s);
  basic_annotator : ∀ f s, I s → I (set_annotator f s);
  basic_call : ∀ c s, touches_registry c = false → I s → I (set_calls (λ l, l ++ [c]) s)
}.

(** A class is observed in a frame when the three phases succeed on it and
    some image of the batch has a detection of that class. *)
Definition observed (E : Env) (fr : Frame) (c : nat) : Prop :=
  ∃ im raw pred det,
    preprocess E fr = Ok im ∧ forward E im = Ok raw ∧
    non_max_suppression E raw = Ok pred ∧ det ∈ pred ∧ c ∈ cls <$> det.


(** A property of the state that does not look at the writer registry or at
    the log of calls. *)
Record registry_free (I : State → Prop) : Prop := {
  rf_calls : ∀ f s, I s → I (set_calls f s);
  rf_vid_path : ∀ f s, I s → I (set_vid_path f s);
  rf_vid_writer : ∀ f s, I s → I (set_vid_writer f s)
}.

(** The registry has a slot for stream index [i], and a writer in it when a
    path is stored for it. *)
Definition has_slot (s : State) (i : nat) : Prop :=
  ∃ stored cur,
    vid_path s !! i = Some stored ∧ vid_writer s !! i = Some cur ∧
    (is_Some stored → is_Some cur).



(** An entry of the printed counts: the initial zero, or the text of a count
    of at least one. *)
Definition count_entry (v : jval) : Prop :=
  v = JInt 0 ∨ ∃ n, (1 ≤ n)%nat ∧ v = JStr (pretty n).


(** The lines of a text file, none when it does not exist. *)
Definition contents (s : State) (path : string) : list Line :=
  default [] (fs s !! path).

(** A line appended to a text file. *)
Definition append_to (path : string) (l : Line) (s : State) : State :=
  set_fs (λ m, <[path := default [] (m !! path) ++ [l]]> m) s.

(** What the steps for one detection do to the state when the class has a
    name: a CSV row, a label line, a box on the annotated image and a crop,
    each under its flag. *)
Definition detection_effect (E : Env) (o : Options) (p txt : string) (gn : list Q)
    (imc : Image) (draw : bool) (d : Detection) (s : State) : State :=
  let s1 := if save_csv o then append_to (csv_path E) (csv_row E p d) s else s in
  let s2 := if save_txt o then append_to (txt +:+ ".txt") (label_line E o gn d) s1 else s1 in
  let s3 := if draw
            then set_annotator (box_label (box d) (dr_label (drawing_of E o d)) (cls d)) s2
            else s2 in
  if save_crop o then set_calls (λ l, l ++ [crop_call E p imc d]) s3 else s3.

(** The last character of a string. *)
Fixpoint last_char (s : string) : option ascii :=
  match s with
  | "" => None
  | String a s' => match last_char s' with Some b => Some b | None => Some a end
  end.

(** ** Vocabulary of the further properties *)

(** The calls that write an image or touch a video writer. *)
Definition is_saving (c : Call) : bool :=
  match c with
  | Imwrite _ _ | VideoWriterNew _ _ _ _ _ | VideoWriterRelease _ | VideoWriterWrite _ _ => true
  | _ => false
  end.

Definition saving_calls (log : list Call) : list Call :=
  filter (λ c, is_saving c = true) log.



(** The windows a log creates, in order. *)
Definition named_windows (log : list Call) : list string :=
  omap (λ c, match c with NamedWindow w => Some w | _ => None end) log.

(** A writer constructed at a path that ends in [.mp4]; any other call. *)
Definition mp4_writer (c : Call) : Prop :=
  match c with
  | VideoWriterNew _ path _ _ _ => has_suffix path ".mp4"
  | _ => True
  end.

(** What suppression returns for a frame, nothing when a phase raises. *)
Definition predictions (E : Env) (fr : Frame) : list (list Detection) :=
  match preprocess E fr with
  | Ok im =>
      match forward E im with
      | Ok raw =>
          match non_max_suppression E raw with
          | Ok pred => pred
          | Raised _ => []
          end
      | Raised _ => []
      end
  | Raised _ => []
  end.

(** The images of a frame's batch, and the detections in them. *)
Definition batch_size (E : Env) (fr : Frame) : nat := length (predictions E fr).

Definition detections (E : Env) (fr : Frame) : nat :=
  sum_list (length <$> predictions E fr).

(** The registry has [bs] slots, and a writer wherever it stores a path. *)
Definition slots_ok (bs : nat) (s : State) : Prop :=
  length (vid_path s) = bs ∧ length (vid_writer s) = bs ∧
  ∀ i p, vid_path s !! i = Some (Some p) → ∃ h, vid_writer s !! i = Some (Some h).

(** The options with another display flag. *)
Definition with_view_img (v : bool) (o : Options) : Options :=
  {| source := source o; view_img := v; save_txt := save_txt o;
     save_format := save_format o; save_csv := save_csv o; save_conf := save_conf o;
     save_crop := save_crop o; nosave := nosave o; update := update o;
     hide_labels := hide_labels o; hide_conf := hide_conf o |}.

(** ** The command line (lines 336-481) *)

(** [l * k] for a Python list. *)
Definition list_mul {A} (l : list A) (k : nat) : list A := mjoin (replicate k l).

(** [opt.imgsz *= 2 if len(opt.imgsz) == 1 else 1] (line 447). *)
Definition expand_imgsz (imgsz : list Z) : list Z :=
  list_mul imgsz (if bool_decide (length imgsz = 1%nat) then 2%nat else 1%nat).

Module Argparse.

(** [s.lstrip("-")] *)
Fixpoint lstrip_dash (s : string) : string :=
  match s with
  | String c s' => if Ascii.eqb c "-" then lstrip_dash s' else s
  | "" => ""
  end.

(** [s.replace("-", "_")] *)
Fixpoint dash_to_underscore (s : string) : string :=
  match s with
  | String c s' => String (if Ascii.eqb c "-" then "_"%char else c) (dash_to_underscore s')
  | "" => ""
  end.

(** An option string is long when its second character is a dash too. *)
Definition is_long (s : string) : bool :=
  match s with
  | String _ (String c _) => Ascii.eqb c "-"
  | _ => false
  end.

(** The attribute [add_argument] stores an optional argument under when no
    [dest] is given: the first long option string, or the first option string
    when none is long, without its leading dashes and with its other dashes
    turned into underscores. *)
Definition dest (option_strings : list string) : string :=
  let chosen :=
    match filter (λ s, is_long s = true) option_strings with
    | long :: _ => long
    | [] => List.hd "" option_strings
    end in
  dash_to_underscore (lstrip_dash chosen).

End Argparse.

(** The option strings of the calls of [add_argument] in [parse_opt]
    (lines 412-445), in their order. *)
Definition parse_opt_arguments : list (list string) :=
  [ ["--weights"]; ["--source"]; ["--data"]; ["--imgsz"; "--img"; "--img-size"];
    ["--conf-thres"]; ["--iou-thres"]; ["--max-det"]; ["--device"]; ["--view-img"];
    ["--save-txt"]; ["--save-format"]; ["--save-csv"]; ["--save-conf"]; ["--save-crop"];
    ["--nosave"]; ["--classes"]; ["--agnostic-nms"]; ["--augment"]; ["--visualize"];
    ["--update"]; ["--project"]; ["--name"]; ["--exist-ok"]; ["--line-thickness"];
    ["--hide-labels"]; ["--hide-conf"]; ["--half"]; ["--dnn"]; ["--vid-stride"] ].

(** The parameters of [run] (lines 71-101), in their order. *)
Definition run_parameters : list string :=
  [ "weights"; "source"; "data"; "imgsz"; "conf_thres"; "iou_thres"; "max_det"; "device";
    "view_img"; "save_txt"; "save_format"; "save_csv"; "save_conf"; "save_crop"; "nosave";
    "classes"; "agnostic_nms"; "augment"; "visualize"; "update"; "project"; "name";
    "exist_ok"; "line_thickness"; "hide_labels"; "hide_conf"; "half"; "dnn"; "vid_stride" ].

(** The call of [run] with the attributes of [opt] as its keywords (line
    476): every attribute must name a parameter, and none may come twice. *)
Definition keywords_accepted (keys params : list string) : Prop :=
  NoDup keys ∧ ∀ k, k ∈ keys → k ∈ params.

(** The image an annotator holds after it has drawn the boxes of [dets] on
    [im0], first to last. *)
Definition annotated (E : Env) (o : Options) (im0 : Image) (dets : list Detection) : Image :=
  {| im_height := im_height im0; im_width := im_width im0; im_pixels := im_pixels im0;
     im_drawn := im_drawn im0 ++ (drawing_of E o <$> dets) |}.

(** ** Further sample runs *)

Module Scenes.

(** The photograph of the sample, with its results kept out of the run
    directory. *)
Definition unsaved : Options :=
  {| source := Sample.pond; view_img := false; save_txt := true; save_format := 0;
     save_csv := true; save_conf := false; save_crop := false; nosave := true;
     update := false; hide_labels := false; hide_conf := false |}.

(** Label files only. *)
Definition labels_only : Options :=
  {| source := Sample.pond; view_img := false; save_txt := true; save_format := 0;
     save_csv := false; save_conf := true; save_crop := false; nosave := false;
     update := false; hide_labels := false; hide_conf := false |}.



(** The video of the sample, shown while it is processed. *)
Definition shown : Options :=
  {| source := "clips/pond.avi"; view_img := true; save_txt := false; save_format := 0;
     save_csv := false; save_conf := false; save_crop := true; nosave := false;
     update := false; hide_labels := false; hide_conf := false |}.

(** A detection of a fourth class, and a model that reports it. *)
Definition swan : Detection :=
  {| box := {| bx1 := Sample.whole 200; by1 := Sample.whole 100;
               bx2 := Sample.whole 400; by2 := Sample.whole 300 |};
     conf := 55 # 100; cls := 3 |}.

Definition four_classes : Env :=
  Sample.env ["goose"; "egg"; "duck"; "swan"] [Sample.photo 1 Sample.pond]
    (λ _, Ok [[Sample.goose; swan]]).

(** The first camera of the machine: batches of one image. *)
Definition live (n : nat) : Frame :=
  {| f_originals := Batch ["0"] [
       {| im_height := 480; im_width := 640; im_pixels := n; im_drawn := [] |}];
     f_im := n; f_vid_cap := None; f_mode := ModeStream; f_count := n |}.

Definition barn_camera : Env :=
  Sample.env ["goose"; "egg"] [live 1; live 2] (λ _, Ok [[Sample.goose]]).

Definition camera_options : Options := Sample.options "0" true.

(** A source the file loader cannot open. *)
Definition missing : Env :=
  {| IMG_FORMATS := IMG_FORMATS Sample.one_photo;
     VID_FORMATS := VID_FORMATS Sample.one_photo;
     check_file := Ok;
     save_dir := "temp/output";
     cwd := "/home/farm";
     names := ["goose"; "egg"];
     check_imshow := false;
     is_linux := true;
     LoadStreams := λ _, Raised (External "no stream");
     LoadScreenshots := λ _, Raised (External "no screen");
     LoadImages := λ _, Raised (External "no images or videos found");
     Tensor := Frame;
     Raw := Frame;
     preprocess := Ok;
     im_shape := λ _, (640, 640);
     forward := Ok;
     non_max_suppression := λ _, Ok [];
     scale_boxes := λ _ b _, b;
     xyxy2xywh := λ l, l;
     timers := (1 # 10, 2 # 10, 1 # 100)%Q |}.

(** A photograph behind a URL. *)
Definition file_url : string := "https://farm.example/geese/pond.jpg".

Definition url_options : Options := Sample.options file_url true.

End Scenes.

(** * Properties *)

Example path_name_1 : Path.name "data/images/bus.jpg" = "bus.jpg".
Proof. reflexivity. Qed.
Example path_suffix_1 : Path.suffix "https://host.example/a/clip.mp4" = ".mp4".
Proof. reflexivity. Qed.
Example path_suffix_2 : Path.suffix "runs/.hidden" = "".
Proof. reflexivity. Qed.
Example path_stem_1 : Path.stem "data/images/bus.jpg" = "bus".
Proof. reflexivity. Qed.
Example path_with_suffix_1 : Path.with_suffix "runs/exp/clip.avi" ".mp4" = "runs/exp/clip.mp4".
Proof. reflexivity. Qed.
Example path_abspath_1 : Path.abspath "/home/u" "runs/../temp/./output" = "/home/u/temp/output".
Proof. reflexivity. Qed.
Example str_isnumeric_1 : Str.isnumeric "0" = true ∧ Str.isnumeric "" = false ∧ Str.isnumeric "1a" = false.
Proof. done. Qed.

Example loader_webcam_index : loader Sample.one_photo "0" = Streams.
Proof. reflexivity. Qed.
Example loader_stream_list : loader Sample.one_photo "list.streams" = Streams.
Proof. reflexivity. Qed.
Example loader_stream_url : loader Sample.one_photo "rtsp://example.com/media" = Streams.
Proof. reflexivity. Qed.
Example loader_file_url : loader Sample.one_photo "https://example.com/geese/pond.jpg" = Images.
Proof. reflexivity. Qed.
Example loader_screen : loader Sample.one_photo "Screen 0 100 100 512 256" = Screenshots.
Proof. reflexivity. Qed.
Example loader_directory : loader Sample.one_photo "data/images" = Images.
Proof. reflexivity. Qed.
Example format_2f_tie : format_2f (1 # 8) = "0.12" ∧ format_2f (3 # 8) = "0.38".
Proof. split; reflexivity. Qed.
Example csv_of_sample_run :
  contents (run Sample.one_photo Sample.photo_options initial).2 (csv_path Sample.one_photo)
  = [CsvRow ["pond.jpg"; "goose"; "0.91"]].
Proof. vm_compute. reflexivity. Qed.

(** ** Strings *)

Lemma app_cons a s r : String a s +:+ r = String a (s +:+ r).
Proof. reflexivity. Qed.

Lemma app_empty r : "" +:+ r = r.
Proof. reflexivity. Qed.


Lemma endswith_unfold s p :
  Str.endswith s p =
  if String.eqb s p then true
  else match s with "" => false | String _ s' => Str.endswith s' p end.
Proof. by destruct s. Qed.

Lemma endswith_spec s p : Str.endswith s p = true ↔ has_suffix s p.
Proof.
  unfold has_suffix. induction s as [|a s IH]; rewrite endswith_unfold.
  - destruct (String.eqb_spec "" p) as [<-|Hne].
    + split; [intros _; by exists "" | done].
    + split; [done | intros [r Hr]]. destruct r; [by rewrite app_empty in Hr | discriminate].
  - destruct (String.eqb_spec (String a s) p) as [<-|Hne].
    + split; [intros _; by exists "" | done].
    + rewrite IH. split.
      * intros [r ->]. by exists (String a r).
      * intros [r Hr]. destruct r as [|b r]; [by rewrite app_empty in Hr |].
        exists r. rewrite app_cons in Hr. congruence.
Qed.








(** ** Computations *)

Section Monad.
Context {A B : Type}.
Implicit Types (m : M A) (f : A → M B).

Lemma bind_ok m f s a s1 : m s = (Ok a, s1) → (m ≫= f) s = f a s1.
Proof. intros H. unfold mbind, M_bind. by rewrite H. Qed.

Lemma bind_raised m f s e s1 : m s = (Raised e, s1) → (m ≫= f) s = (Raised e, s1).
Proof. intros H. unfold mbind, M_bind. by rewrite H. Qed.

Lemma bind_inv m f s r s' :
  (m ≫= f) s = (r, s') →
  (∃ a s1, m s = (Ok a, s1) ∧ f a s1 = (r, s')) ∨ (∃ e, m s = (Raised e, s') ∧ r = Raised e).
Proof.
  unfold mbind, M_bind. destruct (m s) as [[a|e] s1]; intros H.
  - left. eauto.
  - right. exists e. by simplify_eq.
Qed.

Lemma bind_ok_inv m f s b s' :
  (m ≫= f) s = (Ok b, s') → ∃ a s1, m s = (Ok a, s1) ∧ f a s1 = (Ok b, s').
Proof. intros [H|(e & _ & ?)]%bind_inv; [done | discriminate]. Qed.

Lemma preserves_bind I m f :
  preserves I m → (∀ a, preserves I (f a)) → preserves I (m ≫= f).
Proof.
  intros Hm Hf s Hs. specialize (Hm s Hs). unfold mbind, M_bind.
  destruct (m s) as [[a|e] s1]; simpl in *; [by apply Hf | done].
Qed.

Lemma preserves_ret I (a : A) : preserves I (mret a).
Proof. by intros s. Qed.

Lemma preserves_raise I e : preserves I (raise e : M A).
Proof. by intros s. Qed.

Lemma preserves_gets I (g : State → A) : preserves I (gets g).
Proof. by intros s. Qed.

Lemma preserves_lift I (x : outcome A) : preserves I (lift x).
Proof. by intros s. Qed.

Lemma preserves_index I (l : list A) i : preserves I (index l i).
Proof. unfold index. destruct (l !! i); by intros s. Qed.

End Monad.

Lemma preserves_for_each {A} I (l : list A) (body : A → M unit) :
  (∀ x, x ∈ l → preserves I (body x)) → preserves I (for_each l body).
Proof.
  induction l as [|x l IH]; intros H; simpl; [by intros s |].
  apply preserves_bind; [apply H; left | intros _; apply IH].
  intros y Hy. apply H. by right.
Qed.

Lemma preserves_modify I g : (∀ s, I s → I (g s)) → preserves I (modify g).
Proof. intros H s. apply H. Qed.

Lemma preserves_when I b m : preserves I m → preserves I (when b m).
Proof. destruct b; [done | by intros _ s]. Qed.

Lemma for_each_app {A} (l1 l2 : list A) (body : A → M unit) s :
  for_each (l1 ++ l2) body s =
  match for_each l1 body s with
  | (Ok _, s1) => for_each l2 body s1
  | (Raised e, s1) => (Raised e, s1)
  end.
Proof.
  revert s. induction l1 as [|x l1 IH]; intros s; simpl; [done |].
  unfold mbind, M_bind. destruct (body x s) as [[[]|e] s1]; [apply IH | done].
Qed.

Lemma elem_of_unique (c : nat) (l : list nat) : c ∈ unique l ↔ c ∈ l.
Proof.
  unfold unique. rewrite elem_of_remove_dups.
  by rewrite (merge_sort_Permutation (≤)%nat l).
Qed.

Lemma NoDup_unique (l : list nat) : NoDup (unique l).
Proof. apply NoDup_remove_dups. Qed.

(** ** The sinks leave basic properties alone *)

Section Basic.
Context (E : Env) (o : Options) (I : State → Prop) (HI : basic I).

Lemma preserves_call c : touches_registry c = false → preserves I (call c).
Proof. intros Hc. apply preserves_modify. intros s. by apply basic_call. Qed.

Lemma preserves_open_append path : preserves I (open_append path).
Proof. apply preserves_modify. intros s. by apply basic_fs. Qed.

Lemma preserves_write_line path l : preserves I (write_line path l).
Proof. apply preserves_modify. intros s. by apply basic_fs. Qed.

Lemma preserves_write_to_csv a b c : preserves I (write_to_csv E a b c).
Proof.
  unfold write_to_csv.
  apply preserves_bind; [apply preserves_open_append | intros _].
  apply preserves_bind; [apply preserves_gets | intros there].
  apply preserves_bind; [apply preserves_when, preserves_write_line | intros _].
  apply preserves_write_line.
Qed.

Lemma preserves_write_detection p txt gn imc view si d :
  preserves I (write_detection E o p txt gn imc view si d).
Proof.
  unfold write_detection.
  apply preserves_bind; [apply preserves_index | intros label].
  apply preserves_bind; [apply preserves_when, preserves_write_to_csv | intros _].
  apply preserves_bind; [apply preserves_when | intros _].
  { apply preserves_bind; [apply preserves_open_append | intros _; apply preserves_write_line]. }
  apply preserves_bind; [apply preserves_when | intros _].
  { apply preserves_modify. intros s. by apply basic_annotator. }
  by apply preserves_when, preserves_call.
Qed.

Lemma preserves_write_results p txt gn imc view si det :
  preserves I (write_results E o p txt gn imc view si det).
Proof. apply preserves_for_each. intros d _. apply preserves_write_detection. Qed.

Lemma preserves_original w fr i : preserves I (original w fr i).
Proof.
  unfold original. destruct (f_originals fr), w; try apply preserves_raise.
  - apply preserves_bind; [apply preserves_index | intros p].
    apply preserves_bind; [apply preserves_index | intros im0]. apply preserves_ret.
  - apply preserves_ret.
Qed.

Lemma preserves_show p im0 : preserves I (show E p im0).
Proof.
  unfold show.
  apply preserves_bind; [apply preserves_gets | intros ws].
  apply preserves_bind; [apply preserves_when | intros _].
  { apply preserves_bind; [| intros _].
    { apply preserves_modify. intros s. by apply basic_windows. }
    apply preserves_bind; [| intros _]; by apply preserves_call. }
  apply preserves_bind; [| intros _]; by apply preserves_call.
Qed.

Lemma count_class_pos c (det : list Detection) :
  c ∈ cls <$> det → (1 ≤ count_class c det)%nat.
Proof.
  intros (d & -> & Hd)%list_elem_of_fmap. unfold count_class.
  assert (Hin : d ∈ filter (λ d', cls d' = cls d) det) by by apply list_elem_of_filter.
  destruct (filter _ det); [by apply elem_of_nil in Hin | simpl; lia].
Qed.

Lemma preserves_count_classes det :
  (∀ c n, c ∈ cls <$> det → (1 ≤ n)%nat → preserves I (gNum_set c (JStr (pretty n)))) →
  preserves I (count_classes E det).
Proof.
  intros Hg. apply preserves_for_each. intros c Hc.
  apply (proj1 (elem_of_unique _ _)) in Hc.
  apply preserves_bind; [| intros _].
  - apply Hg; [done | by apply count_class_pos].
  - apply preserves_bind; [apply preserves_index | intros _; apply preserves_ret].
Qed.

Lemma preserves_persist view si fr i p im0 :
  (∀ sp, preserves I (save_video i sp (f_vid_cap fr) im0)) →
  preserves I (persist E view si fr i p im0).
Proof.
  intros Hv. unfold persist.
  apply preserves_bind; [apply preserves_when, preserves_show | intros _].
  apply preserves_when. case_bool_decide; [by apply preserves_call | apply Hv].
Qed.

Lemma preserves_process_image w view si fr im i det :
  (∀ c n, c ∈ cls <$> det → (1 ≤ n)%nat → preserves I (gNum_set c (JStr (pretty n)))) →
  (∀ sp im0, preserves I (save_video i sp (f_vid_cap fr) im0)) →
  preserves I (process_image E o w view si fr im i det).
Proof.
  intros Hg Hv. unfold process_image.
  apply preserves_bind; [| intros _].
  { apply preserves_modify. intros s. by apply basic_seen. }
  apply preserves_bind; [apply preserves_original | intros [raw_p im0]].
  apply preserves_bind; [| intros _].
  { apply preserves_modify. intros s. by apply basic_annotator. }
  apply preserves_bind; [apply preserves_when | intros _].
  { apply preserves_bind; [| intros _; apply preserves_write_results].
    apply preserves_count_classes. intros c n Hc Hn. apply Hg; [| done].
    rewrite <- list_fmap_compose in Hc. done. }
  apply preserves_bind; [apply preserves_gets | intros im1].
  apply preserves_persist. intros sp. apply Hv.
Qed.

Lemma preserves_run_frame w view si fr :
  (∀ c n, observed E fr c → (1 ≤ n)%nat → preserves I (gNum_set c (JStr (pretty n)))) →
  (∀ i sp im0, preserves I (save_video i sp (f_vid_cap fr) im0)) →
  preserves I (run_frame E o w view si fr).
Proof.
  intros Hg Hv. unfold run_frame, lift, preserves, mbind, M_bind.
  intros s Hs.
  destruct (preprocess E fr) as [im|e] eqn:Him; [| done].
  destruct (forward E im) as [raw|e] eqn:Hraw; [| done].
  destruct (non_max_suppression E raw) as [pred|e] eqn:Hpred; [| done].
  revert s Hs. apply preserves_for_each. intros [i det] Hin.
  apply list_elem_of_lookup in Hin as [k Hk].
  rewrite list_lookup_imap in Hk.
  destruct (pred !! k) as [det'|] eqn:Hdet; simplify_eq/=.
  apply preserves_process_image; [| intros; apply Hv].
  intros c n Hc Hn. apply Hg; [| done]. exists im, raw, pred, det.
  repeat split; try done. by eapply list_elem_of_lookup_2.
Qed.

Lemma preserves_frames_loop frames :
  (∀ fr c n, fr ∈ frames → observed E fr c → (1 ≤ n)%nat →
             preserves I (gNum_set c (JStr (pretty n)))) →
  (∀ fr i sp im0, fr ∈ frames → preserves I (save_video i sp (f_vid_cap fr) im0)) →
  preserves I (frames_loop E o frames).
Proof.
  intros Hg Hv. apply preserves_for_each. intros fr Hfr.
  apply preserves_run_frame; [intros; by eapply Hg | intros; by apply Hv].
Qed.

End Basic.

(** ** The registry and the count table leave the other fields alone *)

Lemma preserves_save_video I i sp cap im0 :
  registry_free I → preserves I (save_video i sp cap im0).
Proof.
  intros HI. unfold save_video.
  assert (Hcall : ∀ c, preserves I (call c)).
  { intros c. apply preserves_modify. intros s. by apply rf_calls. }
  apply preserves_bind; [| intros stored].
  { apply preserves_bind; [apply preserves_gets | intros l; apply preserves_index]. }
  apply preserves_bind; [apply preserves_when | intros _].
  { apply preserves_bind; [| intros _].
    { apply preserves_modify. intros s. by apply rf_vid_path. }
    apply preserves_bind; [| intros old].
    { apply preserves_bind; [apply preserves_gets | intros l; apply preserves_index]. }
    apply preserves_bind; [destruct old; [apply Hcall | apply preserves_ret] | intros _].
    destruct (writer_settings cap im0) as [[fps w] h].
    apply preserves_bind; [apply preserves_gets | intros new].
    apply preserves_bind; [apply Hcall | intros _].
    apply preserves_modify. intros s. by apply rf_vid_writer. }
  apply preserves_bind; [| intros cur].
  { apply preserves_bind; [apply preserves_gets | intros l; apply preserves_index]. }
  destruct cur; [apply Hcall | apply preserves_raise].
Qed.

Lemma preserves_gNum_set I c v :
  (∀ f s, I s → I (set_gNum f s)) → preserves I (gNum_set c v).
Proof.
  intros HI. unfold gNum_set.
  apply preserves_bind; [apply preserves_gets | intros g].
  case_bool_decide; [apply preserves_modify; intros s; apply HI | apply preserves_raise].
Qed.

Lemma stdout_basic x : basic (λ s, stdout s = x).
Proof. by split. Qed.

Lemma stdout_registry_free x : registry_free (λ s, stdout s = x).
Proof. by split. Qed.

Lemma frames_loop_stdout E o frames s :
  stdout (frames_loop E o frames s).2 = stdout s.
Proof.
  assert (H : preserves (λ s', stdout s' = stdout s) (frames_loop E o frames)); [| by apply H].
  apply preserves_frames_loop.
  - apply stdout_basic.
  - intros. by apply preserves_gNum_set.
  - intros. apply preserves_save_video, stdout_registry_free.
Qed.

(** ** Before and after the loop *)

Lemma start_run E o s :
  start E o s =
  match resolve_source E o with
  | Raised e => (Raised e, s)
  | Ok src =>
      match load_dataset E o src with
      | Raised e => (Raised e, s)
      | Ok d =>
          (Ok d,
           set_gNum (λ _, [JInt 0; JInt 0; JInt 0])
             (set_windows (λ _, [])
                (set_seen (λ _, 0%nat)
                   (set_vid_writer (λ _, replicate (if webcam E (source o) then ds_len d else 1%nat) None)
                      (set_vid_path (λ _, replicate (if webcam E (source o) then ds_len d else 1%nat) None) s)))))
      end
  end.
Proof.
  unfold start, lift, mbind, M_bind.
  destruct (resolve_source E o) as [src|e]; [| done].
  by destruct (load_dataset E o src) as [d|e].
Qed.

Lemma finish_run E o s :
  finish E o s =
  if bool_decide (seen s = 0%nat) then (Raised ZeroDivisionError, s)
  else (Ok tt,
        set_stdout (λ l, l ++ [{| imagePath := Path.abspath (cwd E) (save_dir E);
                                  counts := gNum s |}])
          (if update o then set_calls (λ l, l ++ [StripOptimizer]) s else s)).
Proof.
  unfold finish, speeds, py_div, gets, mbind, M_bind.
  destruct (timers E) as [[t0 t1] t2]. simpl.
  case_bool_decide; [done |]. simpl. by destruct (update o).
Qed.

Lemma run_unfold E o s :
  run E o s =
  match start E o s with
  | (Raised e, s0) => (Raised e, s0)
  | (Ok d, s0) =>
      match frames_loop E o (ds_frames d) s0 with
      | (Raised e, s1) => (Raised e, s1)
      | (Ok _, s1) => finish E o s1
      end
  end.
Proof.
  unfold run, mbind, M_bind. destruct (start E o s) as [[d|e] s0]; [| done].
  by destruct (frames_loop E o (ds_frames d) s0) as [[[]|e] s1].
Qed.

Lemma start_stdout E o s : stdout (start E o s).2 = stdout s.
Proof.
  rewrite start_run. destruct (resolve_source E o) as [src|e]; [| done].
  by destruct (load_dataset E o src).
Qed.

(** ** C1: the CSV sink *)

Lemma write_to_csv_run E a b c s :
  write_to_csv E a b c s =
  (Ok tt, set_fs (λ m, <[csv_path E := default [] (m !! csv_path E) ++ [CsvRow [a; b; c]]]> m) s).
Proof.
  unfold write_to_csv, open_append, path_is_file, write_line, when, modify, gets, mbind, M_bind.
  destruct s as [m ? ? ? ? ? ? ? ?]. unfold set_fs. simpl.
  destruct (m !! csv_path E) as [old|] eqn:Hm; simpl.
  - rewrite Hm. rewrite bool_decide_eq_true_2 by eauto. simpl. by rewrite Hm.
  - rewrite lookup_insert_eq. rewrite bool_decide_eq_true_2 by eauto. simpl.
    rewrite lookup_insert_eq. simpl. by rewrite insert_insert_eq.
Qed.

(** C1, as the code has it. The first call of [write_to_csv] in a run
    directory without files leaves [predictions.csv] with the data row alone:
    the file is opened for appending before its existence is tested, so the
    header row is not written. The claim expects a header row before the
    data row. *)
Theorem first_csv_write_omits_header (E : Env) (image_name prediction confidence : string) :
  (write_to_csv E image_name prediction confidence initial).1 = Ok tt ∧
  fs (write_to_csv E image_name prediction confidence initial).2 !! csv_path E
  = Some [CsvRow [image_name; prediction; confidence]].
Proof.
  rewrite write_to_csv_run. split; [done |]. simpl.
  rewrite lookup_insert_eq. by rewrite lookup_empty.
Qed.

(** Every call appends exactly its data row, whatever the file holds. *)
Lemma csv_write_appends_one_row E a b c s :
  fs (write_to_csv E a b c s).2 !! csv_path E
  = Some (default [] (fs s !! csv_path E) ++ [CsvRow [a; b; c]]).
Proof. rewrite write_to_csv_run. simpl. by rewrite lookup_insert_eq. Qed.

(** ** C10: a run without frames *)

(** C10. When the dataset yields no frame, [run] raises the division error of
    the average speeds and prints nothing; and whenever [run] prints its
    summary, at least one image has been counted. *)
Theorem summary_needs_an_image (E : Env) (o : Options) (s : State) r s' :
  run E o s = (r, s') →
  (∀ src d, resolve_source E o = Ok src → load_dataset E o src = Ok d →
            ds_frames d = [] → r = Raised ZeroDivisionError ∧ stdout s' = stdout s) ∧
  (stdout s' ≠ stdout s → r = Ok tt ∧ (1 ≤ seen s')%nat).
Proof.
  intros Hrun. rewrite run_unfold in Hrun. split.
  - intros src d Hsrc Hd Hnil. rewrite start_run, Hsrc, Hd, Hnil in Hrun.
    simpl in Hrun. rewrite finish_run in Hrun. simpl in Hrun. by simplify_eq.
  - intros Hout. pose proof (start_stdout E o s) as H0.
    destruct (start E o s) as [[d|e] s0]; simpl in H0; [| by simplify_eq].
    pose proof (frames_loop_stdout E o (ds_frames d) s0) as H1.
    destruct (frames_loop E o (ds_frames d) s0) as [[[]|e] s1]; simpl in H1;
      [| simplify_eq; congruence].
    rewrite finish_run in Hrun. case_bool_decide as Hseen; simplify_eq; [congruence |].
    split; [done |]. destruct (update o); simpl; lia.
Qed.

(** ** C8: failures of a frame, and frames without detections *)


Lemma original_state w fr i s : (original w fr i s).2 = s.
Proof.
  unfold original, index, mbind, M_bind.
  destruct (f_originals fr) as [paths ims|p im], w; try done.
  destruct (paths !! i); [| done]. simpl. by destruct (ims !! i).
Qed.

Lemma show_run E p im0 s :
  show E p im0 s =
  (Ok tt,
   set_calls (λ l, l ++ [Imshow p im0; WaitKey])
     (if is_linux E && bool_decide (p ∉ windows s)
      then set_calls (λ l, l ++ [NamedWindow p; ResizeWindow p (im_width im0) (im_height im0)])
             (set_windows (λ l, l ++ [p]) s)
      else s)).
Proof.
  unfold show, call, when, modify, gets, mbind, M_bind. destruct s. simpl.
  destruct (is_linux E && bool_decide _); unfold set_calls, set_windows; simpl;
    by rewrite <- ?(assoc_L (++)).
Qed.

Lemma save_video_ok i sp cap im0 s :
  has_slot s i → (save_video i sp cap im0 s).1 = Ok tt.
Proof.
  intros (stored & old & Hs & Ho & Hso).
  unfold save_video, call, when, modify, gets, index, mbind, M_bind.
  destruct s as [? ? ? ? ? ? vp vw ?]. simpl in *.
  rewrite Hs. simpl. case_bool_decide as Hne; simpl.
  - rewrite Ho. destruct (writer_settings cap im0) as [[fps w] h].
    assert (i < length vw)%nat by by eapply lookup_lt_Some.
    destruct old; simpl; by rewrite list_lookup_insert_eq.
  - rewrite Ho. destruct old as [h|]; [done |].
    destruct Hso as [? [=]]. subst. by eexists.
Qed.


Lemma persist_quiet E view si fr i p im0 (P : State → Prop) :
  registry_free P → (∀ f s, P s → P (set_windows f s)) →
  preserves P (persist E view si fr i p im0).
Proof.
  intros HP Hw. unfold persist.
  assert (Hcall : ∀ c, preserves P (call c)).
  { intros c. apply preserves_modify. intros s. by apply rf_calls. }
  apply preserves_bind; [apply preserves_when | intros _].
  { unfold show. apply preserves_bind; [apply preserves_gets | intros ws].
    apply preserves_bind; [apply preserves_when | intros _].
    { apply preserves_bind; [apply preserves_modify; intros s; apply Hw | intros _].
      apply preserves_bind; [| intros _]; apply Hcall. }
    apply preserves_bind; [| intros _]; apply Hcall. }
  apply preserves_when. case_bool_decide; [apply Hcall | by apply preserves_save_video].
Qed.



(** ** C4: the class count table *)

Lemma gNum_basic (P : list jval → Prop) : basic (λ s, P (gNum s)).
Proof. by split. Qed.

Lemma gNum_registry_free (P : list jval → Prop) : registry_free (λ s, P (gNum s)).
Proof. by split. Qed.

Lemma cls_rescale E from to (det : list Detection) :
  cls <$> (rescale E from to <$> det) = cls <$> det.
Proof. by rewrite <- list_fmap_compose. Qed.

Lemma count_class_rescale E from to c (det : list Detection) :
  count_class c (rescale E from to <$> det) = count_class c det.
Proof.
  unfold count_class. induction det as [|d det IH]; [done |].
  rewrite fmap_cons, !filter_cons. simpl.
  destruct (decide (cls d = c)); simpl; by rewrite IH.
Qed.

Lemma gNum_set_inv c v s r s' :
  gNum_set c v s = (r, s') →
  (r = Ok tt ∧ (c < length (gNum s))%nat ∧ s' = set_gNum <[c := v]> s) ∨
  (r = Raised IndexError ∧ (length (gNum s) ≤ c)%nat ∧ s' = s).
Proof.
  unfold gNum_set, gets, modify, raise, mbind, M_bind.
  case_bool_decide; intros ?; simplify_eq; [left | right]; repeat split; auto; lia.
Qed.

Lemma count_loop_spec E (body_count : nat → nat) cs s s' :
  NoDup cs →
  for_each cs (λ c, gNum_set c (JStr (pretty (body_count c))) ;;
                    _ ← index (names E) c; mret tt) s = (Ok tt, s') →
  (∀ c, c ∈ cs → gNum s' !! c = Some (JStr (pretty (body_count c)))) ∧
  (∀ c, c ∉ cs → gNum s' !! c = gNum s !! c).
Proof.
  intros Hnd. revert s. induction Hnd as [|c cs Hc Hnd IH]; intros s Hrun; simpl in Hrun.
  - unfold mret, M_ret in Hrun. simplify_eq. split; [by intros c ?%elem_of_nil | done].
  - apply bind_ok_inv in Hrun as ([] & s1 & Hbody & Hrest).
    apply bind_ok_inv in Hbody as ([] & s2 & Hset & Hname).
    apply gNum_set_inv in Hset as [(_ & Hlt & ->)|(? & _)]; [| done].
    assert (s1 = set_gNum <[c := JStr (pretty (body_count c))]> s) as ->.
    { revert Hname. unfold index, raise, mbind, M_bind, mret, M_ret.
      destruct (names E !! c); intros ?; by simplify_eq. }
    destruct (IH _ Hrest) as [Hin Hout]. split.
    + intros c' [->|Hc']%elem_of_cons; [| by apply Hin].
      rewrite (Hout _ Hc). destruct s; simpl in *. by apply list_lookup_insert_eq.
    + intros c' Hc'. apply not_elem_of_cons in Hc' as [Hne Hc'].
      rewrite (Hout _ Hc'). destruct s; simpl. by apply list_lookup_insert_ne.
Qed.

Lemma count_classes_spec E det s s' :
  count_classes E det s = (Ok tt, s') →
  (∀ c, c ∈ cls <$> det → gNum s' !! c = Some (JStr (pretty (count_class c det)))) ∧
  (∀ c, c ∉ cls <$> det → gNum s' !! c = gNum s !! c).
Proof.
  intros Hrun. unfold count_classes in Hrun.
  apply (count_loop_spec E (λ c, count_class c det)) in Hrun as [Hin Hout];
    [| apply NoDup_unique].
  split; intros c Hc; [apply Hin | apply Hout]; by rewrite elem_of_unique.
Qed.

(** The table after an image, from the table before it. *)
Lemma process_image_counts E o w view si fr im i det s s' :
  process_image E o w view si fr im i det s = (Ok tt, s') →
  ∃ s2 s3, gNum s2 = gNum s ∧ gNum s' = gNum s3 ∧
    (det = [] ∧ s3 = s2 ∨
     det ≠ [] ∧ ∃ from to,
       (count_classes E (rescale E from to <$> det) s2).1 = Ok tt ∧
       gNum s3 = gNum (count_classes E (rescale E from to <$> det) s2).2).
Proof.
  intros Hrun. unfold process_image in Hrun.
  apply bind_ok_inv in Hrun as ([] & s1 & Hseen & Hrun).
  apply bind_ok_inv in Hrun as ([p im0] & s1' & Horig & Hrun).
  apply bind_ok_inv in Hrun as ([] & s2 & Hann & Hrun).
  apply bind_ok_inv in Hrun as ([] & s3 & Hdet & Hrun).
  apply bind_ok_inv in Hrun as (im1 & s3' & Hget & Hrun).
  unfold modify in Hseen, Hann. unfold gets in Hget. simplify_eq.
  pose proof (original_state w fr i (set_seen S s)) as Ho. rewrite Horig in Ho.
  simpl in Ho. subst s1'.
  exists (set_annotator (λ _, im0) (set_seen S s)), s3'. split; [by destruct s |]. split.
  { assert (H : preserves (λ st, gNum st = gNum s3')
                  (persist E view si fr i (path_str p) (annotator s3') )).
    { apply persist_quiet; [apply (gNum_registry_free (λ g, g = gNum s3')) | done]. }
    specialize (H s3' eq_refl). by rewrite Hrun in H. }
  unfold when in Hdet. case_bool_decide as Hne.
  - right. split; [done |]. eexists _, _.
    apply bind_ok_inv in Hdet as ([] & s4 & Hcount & Hwrite).
    rewrite Hcount. split; [done |]. simpl.
    assert (H : preserves (λ st, gNum st = gNum s4)
                  (write_results E o (path_str p) (txt_path_of E fr (path_str p)) (gain im0)
                     im0 view si (rescale E (im_shape E im) (im_height im0, im_width im0) <$> det))).
    { apply preserves_write_results, (gNum_basic (λ g, g = gNum s4)). }
    specialize (H s4 eq_refl). by rewrite Hwrite in H.
  - left. split; [by destruct det; [| destruct Hne] |]. unfold mret, M_ret in Hdet. by simplify_eq.
Qed.

Lemma process_image_table E o w view si fr im i (det : list Detection) s s' :
  process_image E o w view si fr im i det s = (Ok tt, s') →
  (∀ c, c ∈ cls <$> det → gNum s' !! c = Some (JStr (pretty (count_class c det)))) ∧
  (∀ c, c ∉ cls <$> det → gNum s' !! c = gNum s !! c).
Proof.
  intros Hrun.
  apply process_image_counts in Hrun as (s2 & s3 & H2 & H3 & [[-> ->]|(_ & from & to & Hok & Hg)]).
  { split; [by intros c ?%elem_of_nil | intros; congruence]. }
  rewrite H3, Hg, <- H2.
  destruct (count_classes E (rescale E from to <$> det) s2) as [r s4] eqn:Hc.
  simpl in *. subst r. apply count_classes_spec in Hc as [Hin Hout].
  rewrite cls_rescale in Hin, Hout. split.
  - intros c Hc. rewrite (Hin c Hc). by rewrite count_class_rescale.
  - done.
Qed.

(** The class counts of an image are written whenever every class among its
    detections has an entry in the table and a name. *)
Lemma count_classes_ok E (det : list Detection) s :
  (∀ c, c ∈ cls <$> det → (c < length (gNum s))%nat ∧ is_Some (names E !! c)) →
  (count_classes E det s).1 = Ok tt.
Proof.
  intros Hin. unfold count_classes.
  assert (Hu : ∀ c, c ∈ unique (cls <$> det) →
            (c < length (gNum s))%nat ∧ is_Some (names E !! c)).
  { intros c Hc. by apply Hin, elem_of_unique. }
  clear Hin. revert s Hu. induction (unique (cls <$> det)) as [|c cs IH]; intros s Hu; [done |].
  simpl. destruct (Hu c) as [Hlt [nm Hnm]]; [by left |].
  erewrite bind_ok.
  2:{ unfold gNum_set, gets, modify, index, mbind, M_bind, mret, M_ret.
      rewrite bool_decide_eq_true_2 by done. by rewrite Hnm. }
  apply IH. intros c' Hc'. destruct s. simpl. rewrite length_insert.
  apply Hu. by right.
Qed.


(** ** C5: the video writer registry *)

Lemma save_video_new i sp cap im0 s stored old :
  vid_path s !! i = Some stored → vid_writer s !! i = Some old → stored ≠ Some sp →
  save_video i sp cap im0 s =
  (Ok tt,
   let n := length (calls s ++ release_of old) in
   set_calls (λ l, l ++ release_of old ++
                   [VideoWriterNew n (Path.with_suffix sp ".mp4") (writer_settings cap im0).1.1
                      (writer_settings cap im0).1.2 (writer_settings cap im0).2;
                    VideoWriterWrite n im0])
     (set_vid_writer <[i := Some n]> (set_vid_path <[i := Some sp]> s))).
Proof.
  intros Hs Ho Hne.
  unfold save_video, call, when, modify, gets, index, mbind, M_bind.
  destruct s as [? cs ? ? ? ? vp vw ?]. simpl in *.
  rewrite Hs. simpl. rewrite bool_decide_eq_true_2 by done. simpl.
  rewrite Ho. destruct (writer_settings cap im0) as [[fps w] h].
  assert (i < length vw)%nat by by eapply lookup_lt_Some.
  destruct old as [h0|]; simpl; rewrite list_lookup_insert_eq by done; simpl;
    unfold set_calls, set_vid_writer, set_vid_path; simpl;
    by rewrite <- ?(assoc_L (++)), ?app_nil_r.
Qed.

Lemma save_video_same i sp cap im0 s h :
  vid_path s !! i = Some (Some sp) → vid_writer s !! i = Some (Some h) →
  save_video i sp cap im0 s = (Ok tt, set_calls (λ l, l ++ [VideoWriterWrite h im0]) s).
Proof.
  intros Hs Ho.
  unfold save_video, call, when, modify, gets, index, mbind, M_bind.
  destruct s as [? cs ? ? ? ? vp vw ?]. simpl in *.
  rewrite Hs. simpl. rewrite bool_decide_eq_false_2 by (by intros []). simpl.
  by rewrite Ho.
Qed.





(** Saving a frame of a video or stream is a write through the registry. *)
Lemma persist_saves_video E fr i p im0 s :
  f_mode fr ≠ ModeImage →
  persist E false true fr i p im0 s
  = save_video i (Path.join (save_dir E) (Path.name p)) (f_vid_cap fr) im0 s.
Proof.
  intros Hm. unfold persist, when, mbind, M_bind, mret, M_ret.
  by rewrite bool_decide_eq_false_2.
Qed.


(** ** C3: the writers open when the run returns *)












(** ** C2: the printed summary *)




Lemma count_shape_set (c n : nat) (g : list jval) :
  (1 ≤ n)%nat →
  (length g = 3%nat ∧ ∀ k v, g !! k = Some v → count_entry v) →
  length (<[c := JStr (pretty n)]> g) = 3%nat ∧
  ∀ k v, <[c := JStr (pretty n)]> g !! k = Some v → count_entry v.
Proof.
  intros Hn [Hlen Hg]. rewrite length_insert. split; [done |].
  intros k v Hk. apply list_lookup_insert_Some in Hk as [(-> & <- & _)|[_ Hk]].
  - right. by exists n.
  - by eapply Hg.
Qed.

Lemma frames_loop_count_shape E o frames :
  preserves (λ s, length (gNum s) = 3%nat ∧ ∀ k v, gNum s !! k = Some v → count_entry v)
    (frames_loop E o frames).
Proof.
  apply preserves_frames_loop.
  - apply (gNum_basic (λ g, length g = 3%nat ∧ ∀ k v, g !! k = Some v → count_entry v)).
  - intros fr c n _ _ Hn. unfold gNum_set.
    apply preserves_bind; [apply preserves_gets | intros g].
    case_bool_decide; [| apply preserves_raise].
    apply preserves_modify. intros s Hs. destruct s. simpl in *.
    by apply count_shape_set.
  - intros. apply preserves_save_video.
    apply (gNum_registry_free (λ g, length g = 3%nat ∧ ∀ k v, g !! k = Some v → count_entry v)).
Qed.


Lemma for_each_split {A} (l1 : list A) x l2 (body : A → M unit) s s' :
  for_each (l1 ++ x :: l2) body s = (Ok tt, s') →
  ∃ sa sb, for_each l1 body s = (Ok tt, sa) ∧ body x sa = (Ok tt, sb) ∧
           for_each l2 body sb = (Ok tt, s').
Proof.
  rewrite for_each_app. destruct (for_each l1 body s) as [[[]|e] sa]; [| done].
  simpl. intros ([] & sb & Hx & Hrest)%bind_ok_inv. by exists sa, sb.
Qed.

Lemma count_text_set (c c' n : nat) (g : list jval) :
  (1 ≤ n)%nat →
  (∃ k, (1 ≤ k)%nat ∧ g !! c = Some (JStr (pretty k))) →
  ∃ k, (1 ≤ k)%nat ∧ <[c' := JStr (pretty n)]> g !! c = Some (JStr (pretty k)).
Proof.
  intros Hn (k & Hk & Hg). destruct (decide (c' = c)) as [->|Hne].
  - exists n. split; [done |]. apply list_lookup_insert_eq. by eapply lookup_lt_Some.
  - exists k. split; [done |]. by rewrite list_lookup_insert_ne.
Qed.

Lemma preserves_count_text_gNum_set c c' n :
  (1 ≤ n)%nat →
  preserves (λ s, ∃ k, (1 ≤ k)%nat ∧ gNum s !! c = Some (JStr (pretty k)))
    (gNum_set c' (JStr (pretty n))).
Proof.
  intros Hn. unfold gNum_set.
  apply preserves_bind; [apply preserves_gets | intros g].
  case_bool_decide; [| apply preserves_raise].
  apply preserves_modify. intros s Hs. destruct s. simpl in *. by apply count_text_set.
Qed.

Lemma run_frame_observed E o w view si fr c s s' :
  run_frame E o w view si fr s = (Ok tt, s') → observed E fr c →
  ∃ k, (1 ≤ k)%nat ∧ gNum s' !! c = Some (JStr (pretty k)).
Proof.
  intros Hrun (im & raw & pred & det & Him & Hraw & Hpred & Hdet & Hc).
  unfold run_frame, lift, mbind at 1 2 3, M_bind at 1 2 3 in Hrun.
  rewrite Him, Hraw, Hpred in Hrun.
  apply list_elem_of_lookup in Hdet as [k Hk].
  assert (Hsplit : ∃ l1 l2, imap pair pred = l1 ++ (k, det) :: l2).
  { apply list_elem_of_split, list_elem_of_lookup. exists k.
    by rewrite list_lookup_imap, Hk. }
  destruct Hsplit as (l1 & l2 & Hsplit). rewrite Hsplit in Hrun.
  apply for_each_split in Hrun as (sa & sb & _ & Himg & Hrest).
  apply process_image_table in Himg as [Hin _].
  assert (Hpres : preserves (λ st, ∃ n, (1 ≤ n)%nat ∧ gNum st !! c = Some (JStr (pretty n)))
            (for_each l2 (λ '(i, det0), process_image E o w view si fr im i det0))).
  { apply preserves_for_each. intros [j det'] _. apply preserves_process_image.
    - apply (gNum_basic (λ g, ∃ n, (1 ≤ n)%nat ∧ g !! c = Some (JStr (pretty n)))).
    - intros. by apply preserves_count_text_gNum_set.
    - intros. apply preserves_save_video.
      apply (gNum_registry_free (λ g, ∃ n, (1 ≤ n)%nat ∧ g !! c = Some (JStr (pretty n)))). }
  specialize (Hpres sb). rewrite Hrest in Hpres. apply Hpres.
  exists (count_class c det). split; [by apply count_class_pos | by apply Hin].
Qed.

Lemma frames_loop_observed E o frames c s s' :
  frames_loop E o frames s = (Ok tt, s') →
  (∃ fr, fr ∈ frames ∧ observed E fr c) →
  ∃ k, (1 ≤ k)%nat ∧ gNum s' !! c = Some (JStr (pretty k)).
Proof.
  intros Hrun (fr & Hfr & Hobs).
  apply list_elem_of_split in Hfr as (f1 & f2 & ->).
  apply for_each_split in Hrun as (sa & sb & _ & Hframe & Hrest).
  assert (Hpres : preserves (λ st, ∃ n, (1 ≤ n)%nat ∧ gNum st !! c = Some (JStr (pretty n)))
            (frames_loop E o f2)).
  { apply preserves_frames_loop.
    - apply (gNum_basic (λ g, ∃ n, (1 ≤ n)%nat ∧ g !! c = Some (JStr (pretty n)))).
    - intros. by apply preserves_count_text_gNum_set.
    - intros. apply preserves_save_video.
      apply (gNum_registry_free (λ g, ∃ n, (1 ≤ n)%nat ∧ g !! c = Some (JStr (pretty n)))). }
  specialize (Hpres sb). unfold frames_loop in Hpres. rewrite Hrest in Hpres. apply Hpres.
  by eapply run_frame_observed.
Qed.


(** ** C7: the order of the steps for the detections of an image *)

Lemma last_char_app s t : t ≠ "" → last_char (s +:+ t) = last_char t.
Proof.
  intros Ht. induction s as [|a s IH]; [done |].
  rewrite app_cons. simpl. rewrite IH. destruct t; [done |]. simpl.
  by destruct (last_char t).
Qed.

Lemma txt_path_not_csv E txt : txt +:+ ".txt" ≠ csv_path E.
Proof.
  intros Heq. apply (f_equal last_char) in Heq. unfold csv_path, Path.join in Heq.
  rewrite bool_decide_eq_false_2 in Heq by done.
  rewrite !last_char_app in Heq by done. discriminate.
Qed.

Lemma append_line_run path l s : append_line path l s = (Ok tt, append_to path l s).
Proof.
  unfold append_line, open_append, write_line, append_to, modify, mbind, M_bind.
  destruct s as [m ? ? ? ? ? ? ? ?]. unfold set_fs. simpl.
  destruct (m !! path) as [old|] eqn:Hm; simpl; [by rewrite Hm |].
  rewrite lookup_insert_eq. simpl. by rewrite insert_insert_eq.
Qed.

Lemma write_detection_run E o p txt gn imc view si d s :
  is_Some (names E !! cls d) →
  write_detection E o p txt gn imc view si d s =
  (Ok tt, detection_effect E o p txt gn imc (si || save_crop o || view) d s).
Proof.
  intros [label Hl]. unfold write_detection, detection_effect, index.
  unfold csv_row, label_line, crop_call, drawing_of, name_of. rewrite Hl.
  unfold when, call, modify, mbind, M_bind, mret, M_ret. simpl.
  destruct (save_csv o); [rewrite write_to_csv_run |];
    (destruct (save_txt o); [rewrite append_line_run |]);
    destruct (si || save_crop o || view), (save_crop o), (hide_labels o); reflexivity.
Qed.

Lemma write_results_run E o p txt gn imc view si (l : list Detection) s :
  Forall (λ d, is_Some (names E !! cls d)) l →
  for_each l (write_detection E o p txt gn imc view si) s =
  (Ok tt, foldl (λ st d, detection_effect E o p txt gn imc (si || save_crop o || view) d st) s l).
Proof.
  intros Hl. revert s. induction Hl as [|d l Hd Hl IH]; intros s; simpl; [done |].
  unfold mbind, M_bind. rewrite write_detection_run by done. apply IH.
Qed.

Section Effects.
Context (E : Env) (o : Options) (p txt : string) (gn : list Q) (imc : Image) (draw : bool).

Lemma effect_csv d s :
  save_csv o = true →
  contents (detection_effect E o p txt gn imc draw d s) (csv_path E) = contents s (csv_path E) ++ [csv_row E p d].
Proof.
  intros Hc. unfold detection_effect, append_to, contents. rewrite Hc.
  destruct s as [m ? ? ? ? ? ? ? ?].
  destruct (save_txt o), draw, (save_crop o); simpl;
    rewrite ?(lookup_insert_ne _ (txt +:+ ".txt")) by apply txt_path_not_csv;
    by rewrite lookup_insert_eq.
Qed.

Lemma effect_txt d s :
  save_txt o = true →
  contents (detection_effect E o p txt gn imc draw d s) (txt +:+ ".txt") = contents s (txt +:+ ".txt") ++ [label_line E o gn d].
Proof.
  intros Hc. unfold detection_effect, append_to, contents. rewrite Hc.
  destruct s as [m ? ? ? ? ? ? ? ?].
  destruct (save_csv o), draw, (save_crop o); simpl; rewrite lookup_insert_eq; simpl;
    by rewrite ?lookup_insert_ne by (intros Heq; by apply (txt_path_not_csv E txt)).
Qed.

Lemma effect_drawn d s :
  draw = true →
  im_drawn (annotator (detection_effect E o p txt gn imc draw d s)) = im_drawn (annotator s) ++ [drawing_of E o d].
Proof.
  intros Hc. unfold detection_effect, append_to. rewrite Hc.
  destruct s. by destruct (save_csv o), (save_txt o), (save_crop o).
Qed.

Lemma effect_crop d s :
  save_crop o = true → calls (detection_effect E o p txt gn imc draw d s) = calls s ++ [crop_call E p imc d].
Proof.
  intros Hc. unfold detection_effect, append_to. rewrite Hc.
  destruct s. by destruct (save_csv o), (save_txt o), draw.
Qed.

Lemma effects_collect {A} (view : State → list A) (item : Detection → A) l s :
  (∀ d st, view (detection_effect E o p txt gn imc draw d st) = view st ++ [item d]) →
  view (foldl (λ st d, detection_effect E o p txt gn imc draw d st) s l) = view s ++ (item <$> l).
Proof.
  intros Hstep. revert s. induction l as [|d l IH]; intros s; simpl.
  - by rewrite app_nil_r.
  - rewrite IH, Hstep. by rewrite <- (assoc_L (++)).
Qed.

End Effects.

(** An image with detections: its class counts, then the steps for its
    rescaled detections, then display and saving of what the annotator
    holds. *)
Lemma process_image_steps E o w view si fr im i (det : list Detection) s raw_p im0 :
  (original w fr i s).1 = Ok (raw_p, im0) → det ≠ [] →
  let p := path_str raw_p in
  let det' := rescale E (im_shape E im) (im_height im0, im_width im0) <$> det in
  process_image E o w view si fr im i det s =
  (count_classes E det' ;;
   write_results E o p (txt_path_of E fr p) (gain im0) im0 view si det' ;;
   im1 ← gets annotator;
   persist E view si fr i p im1) (set_annotator (λ _, im0) (set_seen S s)).
Proof.
  intros Ho Hne p det'. unfold process_image.
  unfold mbind at 1, M_bind at 1. unfold modify at 1.
  pose proof (original_state w fr i (set_seen S s)) as Hst.
  assert (Ho' : (original w fr i (set_seen S s)).1 = Ok (raw_p, im0)).
  { revert Ho. unfold original, index, mbind, M_bind.
    destruct (f_originals fr) as [paths ims|? ?], w; try done.
    destruct (paths !! i); [| done]. simpl. by destruct (ims !! i). }
  unfold mbind at 1, M_bind at 1.
  destruct (original w fr i (set_seen S s)) as [r s1]. simpl in *. subst.
  unfold mbind at 1, M_bind at 1. unfold modify at 1.
  rewrite bool_decide_eq_true_2 by done. unfold when.
  unfold mbind, M_bind. subst p det'.
  destruct (count_classes E _ _) as [[[]|e] s2]; [| done].
  by destruct (write_results E o _ _ _ _ _ _ _ s2) as [[[]|e] s3].
Qed.

(** C7. The steps for the detections of one image take them last first:
    the CSV rows, the label lines, the boxes drawn on the annotated image
    and the crops each follow the reverse of the detection list, row by row,
    after what their sink held before. *)
Theorem detections_exported_in_reverse (E : Env) (o : Options) (fr : Frame) (p : string)
    (gn : list Q) (imc : Image) (view si : bool) (det : list Detection) (s : State) :
  Forall (λ d, is_Some (names E !! cls d)) det →
  let txt := txt_path_of E fr p in
  ∃ s',
    write_results E o p txt gn imc view si det s = (Ok tt, s') ∧
    (save_csv o = true →
     contents s' (csv_path E) = contents s (csv_path E) ++ (csv_row E p <$> reverse det)) ∧
    (save_txt o = true →
     contents s' (txt +:+ ".txt")
     = contents s (txt +:+ ".txt") ++ (label_line E o gn <$> reverse det)) ∧
    (si || save_crop o || view = true →
     im_drawn (annotator s') = im_drawn (annotator s) ++ (drawing_of E o <$> reverse det)) ∧
    (save_crop o = true →
     calls s' = calls s ++ (crop_call E p imc <$> reverse det)).
Proof.
  intros Hnames txt. eexists. split.
  - unfold write_results. apply write_results_run.
    by apply Forall_reverse.
  - repeat split; intros Hflag.
    + apply (effects_collect E o p txt gn imc _ (λ st, contents st (csv_path E))).
      intros. by apply effect_csv.
    + apply (effects_collect E o p txt gn imc _ (λ st, contents st (txt +:+ ".txt"))).
      intros. by apply effect_txt.
    + apply (effects_collect E o p txt gn imc _ (λ st, im_drawn (annotator st))).
      intros. by apply effect_drawn.
    + apply (effects_collect E o p txt gn imc _ calls). intros. by apply effect_crop.
Qed.

(** ** The properties on the sample runs *)







Lemma detections_exported_in_reverse_witness :
  ∃ s',
    write_results Sample.one_photo Sample.photo_options Sample.pond
      (txt_path_of Sample.one_photo (Sample.photo 1 Sample.pond) Sample.pond)
      (gain Sample.picture) Sample.picture false true [Sample.goose; Sample.egg] initial
    = (Ok tt, s') ∧
    contents s' (csv_path Sample.one_photo)
    = [CsvRow ["pond.jpg"; "egg"; "0.77"]; CsvRow ["pond.jpg"; "goose"; "0.91"]].
Proof.
  destruct (detections_exported_in_reverse Sample.one_photo Sample.photo_options
              (Sample.photo 1 Sample.pond) Sample.pond (gain Sample.picture) Sample.picture
              false true [Sample.goose; Sample.egg] initial)
    as (s' & Hrun & Hcsv & _).
  - repeat constructor; by eexists.
  - exists s'. split; [exact Hrun |]. rewrite Hcsv by reflexivity. vm_compute; reflexivity.
Defined.


Lemma summary_needs_an_image_witness :
  (run Sample.no_frames Sample.photo_options initial).1 = Raised ZeroDivisionError ∧
  stdout (run Sample.no_frames Sample.photo_options initial).2 = [].
Proof.
  destruct (summary_needs_an_image Sample.no_frames Sample.photo_options initial
              (run Sample.no_frames Sample.photo_options initial).1
              (run Sample.no_frames Sample.photo_options initial).2) as [Hnone _].
  - vm_compute; reflexivity.
  - apply (Hnone Sample.pond {| ds_len := 1; ds_frames := [] |}); vm_compute; reflexivity.
Defined.

(** * Further properties of the run *)

(** ** Keeping a property through the pipeline *)

Lemma preserves_when_false {I} b m : b = false → preserves I (when b m).
Proof. intros ->. by intros s. Qed.

(** One step through a computation of the pipeline: its definition is opened
    and its binds, loops and branches are split; [leaf] has to show that a
    change of the state keeps the property. *)
Ltac preserves_open :=
  lazymatch goal with
  | |- preserves _ (call _) => unfold call
  | |- preserves _ (open_append _) => unfold open_append
  | |- preserves _ (write_line _ _) => unfold write_line
  | |- preserves _ (append_line _ _) => unfold append_line
  | |- preserves _ (path_is_file _) => unfold path_is_file
  | |- preserves _ (write_to_csv _ _ _ _) => unfold write_to_csv
  | |- preserves _ (gNum_set _ _) => unfold gNum_set
  | |- preserves _ (count_classes _ _) => unfold count_classes
  | |- preserves _ (write_detection _ _ _ _ _ _ _ _ _) => unfold write_detection
  | |- preserves _ (write_results _ _ _ _ _ _ _ _ _) => unfold write_results
  | |- preserves _ (save_video _ _ _ _) => unfold save_video
  | |- preserves _ (original _ _ _) => unfold original
  | |- preserves _ (show _ _ _) => unfold show
  | |- preserves _ (persist _ _ _ _ _ _ _) => unfold persist
  | |- preserves _ (process_image _ _ _ _ _ _ _ _ _) => unfold process_image
  | |- preserves _ (run_frame _ _ _ _ _ _) => unfold run_frame
  | |- preserves _ (frames_loop _ _ _) => unfold frames_loop
  end.

Ltac preserves_step leaf :=
  first
    [ assumption
    | apply preserves_ret | apply preserves_raise | apply preserves_gets
    | apply preserves_lift | apply preserves_index
    | apply preserves_when_false; first [reflexivity | assumption]
    | apply preserves_when
    | apply preserves_bind; [| intros ?]
    | apply preserves_for_each; intros ? ?
    | apply preserves_modify; solve [leaf]
    | preserves_open
    | match goal with |- preserves _ (match ?x with _ => _ end) => destruct x end ].

Ltac preserves_all leaf := repeat preserves_step leaf.

Lemma filter_snoc_out {A} (P : A → Prop) `{∀ x, Decision (P x)} (l : list A) x :
  ¬ P x → filter P (l ++ [x]) = filter P l.
Proof. intros Hx. rewrite filter_app, filter_cons_False by done. apply app_nil_r. Qed.

(** ** Nothing is saved without [save_img] *)

Ltac leaf_saving :=
  intros [] ?; simpl in *;
  unfold saving_calls in *; rewrite ?filter_snoc_out by (simpl; discriminate); assumption.

Lemma frames_loop_saves_nothing E o w view frames x :
  preserves (λ s, saving_calls (calls s) = x)
    (for_each frames (run_frame E o w view false)).
Proof. preserves_all leaf_saving. Qed.

(** X1. With [nosave], or with a source that ends in [.txt], a run calls
    [cv2.imwrite] for no image and constructs, writes and releases no video
    writer, however it ends. *)
Theorem nothing_saved_without_save_img (E : Env) (o : Options) (s : State) :
  save_img_flag o = false →
  saving_calls (calls (run E o s).2) = saving_calls (calls s).
Proof.
  intros Hsi. rewrite run_unfold, start_run.
  destruct (resolve_source E o) as [src|e]; [| done].
  destruct (load_dataset E o src) as [d|e]; [| done].
  set (s0 := set_gNum _ _).
  assert (H0 : saving_calls (calls s0) = saving_calls (calls s)) by by destruct s.
  pose proof (frames_loop_saves_nothing E o (webcam E (source o)) (view_flag E o)
                (ds_frames d) _ s0 H0) as H1.
  unfold frames_loop. rewrite Hsi.
  destruct (for_each _ _ s0) as [[[]|e] s1]; [| done]. simpl in H1.
  rewrite finish_run. case_bool_decide; [done |]. simpl.
  destruct (update o), s1; simpl in *; [| done].
  unfold saving_calls in *. by rewrite filter_snoc_out.
Qed.

(** A property kept by the loop and by what surrounds it is kept by the run. *)
Lemma run_preserves E o (I : State → Prop) :
  (∀ f1 f2 f3 f4 f5 s,
     I s → I (set_gNum f1 (set_windows f2 (set_seen f3 (set_vid_writer f4 (set_vid_path f5 s)))))) →
  (∀ frames, preserves I (frames_loop E o frames)) →
  (∀ s, I s → I (set_calls (λ l, l ++ [StripOptimizer]) s)) →
  (∀ f s, I s → I (set_stdout f s)) →
  preserves I (run E o).
Proof.
  intros Hstart Hloop Hstrip Hout s Hs. rewrite run_unfold, start_run.
  destruct (resolve_source E o) as [src|e]; [| done].
  destruct (load_dataset E o src) as [d|e]; [| done].
  set (s0 := set_gNum _ _). assert (H0 : I s0) by by apply Hstart.
  pose proof (Hloop (ds_frames d) s0 H0) as H1.
  destruct (frames_loop E o (ds_frames d) s0) as [[[]|e] s1]; [| done]. simpl in H1.
  rewrite finish_run. case_bool_decide; [done |]. simpl.
  apply Hout. destruct (update o); [by apply Hstrip | done].
Qed.

(** ** Text files without the export flags *)

Ltac leaf_csv_file :=
  intros [] ?; simpl in *; repeat case_match;
  rewrite ?lookup_insert_ne by apply txt_path_not_csv; assumption.

(** X2. Without [save_csv] a run neither creates nor changes
    [predictions.csv], whatever else it exports and however it ends. *)
Theorem csv_untouched_without_save_csv (E : Env) (o : Options) (s : State) :
  save_csv o = false →
  fs (run E o s).2 !! csv_path E = fs s !! csv_path E.
Proof.
  intros Hcsv.
  apply (run_preserves E o (λ st, fs st !! csv_path E = fs s !! csv_path E));
    [by intros ? ? ? ? ? [] | | by intros [] | by intros ? [] | done].
  intros frames. preserves_all leaf_csv_file.
Qed.

Ltac leaf_same_field := intros [] ?; simpl in *; assumption.

(** X3. With neither [save_txt] nor [save_csv] a run leaves every text file
    as it was: no label file and no CSV file is created or appended to. *)
Theorem no_text_files_without_export_flags (E : Env) (o : Options) (s : State) :
  save_txt o = false → save_csv o = false →
  fs (run E o s).2 = fs s.
Proof.
  intros Htxt Hcsv.
  apply (run_preserves E o (λ st, fs st = fs s));
    [by intros ? ? ? ? ? [] | | by intros [] | by intros ? [] | done].
  intros frames. preserves_all leaf_same_field.
Qed.

(** ** The optimizer is stripped last *)




(** ** Result videos are MP4 files *)

Ltac leaf_mp4 :=
  intros [] ?; simpl in *; rewrite ?Forall_app, ?Forall_singleton;
  repeat split; try assumption; try exact I;
  unfold mp4_writer, has_suffix, Path.with_suffix; eexists; reflexivity.

(** X5. Every video writer a run constructs is opened at a path that ends in
    [.mp4], whatever the container of the source video. *)
Theorem result_videos_are_mp4 (E : Env) (o : Options) (s : State) :
  Forall mp4_writer (calls s) →
  Forall mp4_writer (calls (run E o s).2).
Proof.
  apply (run_preserves E o (λ st, Forall mp4_writer (calls st))).
  - by intros ? ? ? ? ? [].
  - intros frames. preserves_all leaf_mp4.
  - leaf_mp4.
  - by intros ? [].
Qed.

(** ** Display windows *)

Ltac preserves_step' leaf := first [solve [auto 1] | preserves_step leaf].
Ltac preserves_all' leaf := repeat preserves_step' leaf.

Lemma named_windows_app l l' : named_windows (l ++ l') = named_windows l ++ named_windows l'.
Proof. apply omap_app. Qed.

Ltac leaf_windows :=
  intros [] ?; simpl in *; rewrite ?named_windows_app; simpl; rewrite ?app_nil_r; assumption.

Lemma show_windows E p im0 :
  preserves (λ s, named_windows (calls s) = windows s ∧ NoDup (windows s)) (show E p im0).
Proof.
  intros s [Heq Hnd]. rewrite show_run. simpl.
  destruct (is_linux E); simpl; [case_bool_decide as Hin; simpl |];
    destruct s; simpl in *; rewrite !named_windows_app; simpl; rewrite ?app_nil_r;
    try done.
  rewrite Heq. split; [done |]. apply NoDup_app. split; [done |].
  split; [| apply NoDup_singleton]. by intros x Hx ->%list_elem_of_singleton.
Qed.

Lemma show_no_window E p im0 x :
  is_linux E = false → preserves (λ s, named_windows (calls s) = x) (show E p im0).
Proof.
  intros Hl s Hs. rewrite show_run, Hl. simpl. destruct s. simpl in *.
  rewrite named_windows_app. simpl. by rewrite app_nil_r.
Qed.

Lemma frames_loop_windows E o frames :
  preserves (λ s, named_windows (calls s) = windows s ∧ NoDup (windows s))
    (frames_loop E o frames).
Proof.
  pose proof (show_windows E) as Hshow.
  preserves_all' ltac:(intros [] [? ?]; simpl in *; rewrite ?named_windows_app; simpl;
                       rewrite ?app_nil_r; by split).
Qed.

Lemma frames_loop_no_window E o frames x :
  is_linux E = false →
  preserves (λ s, named_windows (calls s) = x) (frames_loop E o frames).
Proof.
  intros Hl. pose proof (λ p im0, show_no_window E p im0 x Hl) as Hshow.
  preserves_all' leaf_windows.
Qed.

(** What holds of the state when a run cannot start, and is kept from the
    state the loop starts in to the end, holds when the run is over. *)
Lemma run_establishes E o (P I : State → Prop) s :
  P s →
  (∀ d, I (set_gNum (λ _, [JInt 0; JInt 0; JInt 0])
             (set_windows (λ _, [])
                (set_seen (λ _, 0%nat)
                   (set_vid_writer
                      (λ _, replicate (if webcam E (source o) then ds_len d else 1%nat) None)
                      (set_vid_path
                         (λ _, replicate (if webcam E (source o) then ds_len d else 1%nat) None)
                         s)))))) →
  (∀ frames, preserves I (frames_loop E o frames)) →
  (∀ s1, I s1 → I (set_calls (λ l, l ++ [StripOptimizer]) s1)) →
  (∀ f s1, I s1 → I (set_stdout f s1)) →
  P (run E o s).2 ∨ I (run E o s).2.
Proof.
  intros HP H0 Hloop Hstrip Hout. rewrite run_unfold, start_run.
  destruct (resolve_source E o) as [src|e]; [| by left].
  destruct (load_dataset E o src) as [d|e]; [| by left]. right.
  pose proof (Hloop (ds_frames d) _ (H0 d)) as H1.
  destruct (frames_loop E o (ds_frames d) _) as [[[]|e] s1]; [| done]. simpl in H1.
  rewrite finish_run. case_bool_decide; [done |]. simpl.
  apply Hout. destruct (update o); [by apply Hstrip | done].
Qed.

(** X6. A run that starts with no window created creates each display window
    at most once, however many frames of that source it shows; off Linux it
    creates none. *)
Theorem windows_created_once (E : Env) (o : Options) (s : State) :
  named_windows (calls s) = [] →
  NoDup (named_windows (calls (run E o s).2)) ∧
  (is_linux E = false → named_windows (calls (run E o s).2) = []).
Proof.
  intros Hs. split.
  - assert (H : named_windows (calls (run E o s).2) = [] ∨
                (named_windows (calls (run E o s).2) = windows (run E o s).2 ∧
                 NoDup (windows (run E o s).2))).
    { apply (run_establishes E o (λ st, named_windows (calls st) = [])
               (λ st, named_windows (calls st) = windows st ∧ NoDup (windows st)) s Hs).
      - intros d. destruct s. simpl in *. split; [done | apply NoDup_nil_2].
      - apply frames_loop_windows.
      - intros [] [? ?]. simpl in *. rewrite named_windows_app. simpl.
        by rewrite app_nil_r.
      - by intros ? []. }
    destruct H as [->|[-> ?]]; [apply NoDup_nil_2 | done].
  - intros Hl.
    apply (run_preserves E o (λ st, named_windows (calls st) = [])).
    + by intros ? ? ? ? ? [].
    + intros frames. by apply frames_loop_no_window.
    + leaf_windows.
    + by intros ? [].
    + done.
Qed.

(** ** The slots of the registry *)

Ltac leaf_slots := intros [] ?; simpl in *; assumption.

Lemma slots_ok_has_slot bs s i : slots_ok bs s → (i < bs)%nat → has_slot s i.
Proof.
  intros (Hp & Hw & Hc) Hi.
  destruct (lookup_lt_is_Some_2 (vid_path s) i) as [stored Hs]; [lia |].
  destruct (lookup_lt_is_Some_2 (vid_writer s) i) as [cur Hcur]; [lia |].
  exists stored, cur. repeat split; try done.
  intros [p ->]. destruct (Hc i p Hs) as [h Hh]. rewrite Hh in Hcur. simplify_eq. by eexists.
Qed.

Lemma save_video_slots bs i sp cap im0 : preserves (slots_ok bs) (save_video i sp cap im0).
Proof.
  intros s Hok. pose proof Hok as (Hp & Hw & Hc).
  destruct (vid_path s !! i) as [stored|] eqn:Hs.
  - assert (Hi : (i < bs)%nat) by (rewrite <- Hp; by eapply lookup_lt_Some).
    destruct (lookup_lt_is_Some_2 (vid_writer s) i) as [old Hold]; [lia |].
    destruct (decide (stored = Some sp)) as [->|Hne].
    + destruct (Hc i sp Hs) as [h Hh].
      rewrite (save_video_same _ _ _ _ _ h) by done. by destruct s.
    + rewrite (save_video_new _ _ _ _ _ stored old) by done. simpl.
      destruct s as [? cs ? ? ? ? vp vw ?]. simpl in *.
      split; [simpl; by rewrite length_insert |].
      split; [simpl; by rewrite length_insert |].
      simpl. intros j p Hj. destruct (decide (i = j)) as [<-|Hij].
      * rewrite list_lookup_insert_eq by lia. by eexists.
      * rewrite list_lookup_insert_ne in Hj by done.
        rewrite list_lookup_insert_ne by done. by eapply Hc.
  - unfold save_video, call, when, modify, gets, index, mbind, M_bind. by rewrite Hs.
Qed.

Lemma frames_loop_slots E o bs frames : preserves (slots_ok bs) (frames_loop E o frames).
Proof.
  pose proof (save_video_slots bs) as Hsave.
  preserves_all' leaf_slots.
Qed.

(** X7. When a run has started, the registry has one slot per stream of a
    live source and one slot otherwise, and the frame loop keeps it so, with
    a writer in every slot that stores a path; so whatever the loop has done,
    writing a frame for a stream index below that number succeeds. *)
Theorem registry_slots_kept (E : Env) (o : Options) (s s0 : State) (d : Dataset)
    (frames : list Frame) (i : nat) sp cap im0 :
  start E o s = (Ok d, s0) →
  (i < (if webcam E (source o) then ds_len d else 1))%nat →
  slots_ok (if webcam E (source o) then ds_len d else 1%nat) (frames_loop E o frames s0).2 ∧
  (save_video i sp cap im0 (frames_loop E o frames s0).2).1 = Ok tt.
Proof.
  intros Hstart Hi. rewrite start_run in Hstart.
  destruct (resolve_source E o) as [src|e]; [| done].
  destruct (load_dataset E o src) as [d'|e]; [| done]. simplify_eq.
  set (bs := if webcam E (source o) then ds_len d else 1%nat) in *.
  assert (H0 : slots_ok bs (frames_loop E o frames
                 (set_gNum (λ _, [JInt 0; JInt 0; JInt 0])
                    (set_windows (λ _, []) (set_seen (λ _, 0%nat)
                       (set_vid_writer (λ _, replicate bs None)
                          (set_vid_path (λ _, replicate bs None) s)))))).2).
  { apply frames_loop_slots. destruct s. simpl.
    split; [apply length_replicate |]. split; [apply length_replicate |].
    intros j p Hj. by apply lookup_replicate in Hj as [? _]. }
  split; [done |]. by eapply save_video_ok, slots_ok_has_slot.
Qed.

(** ** Counting images *)

Lemma bind_modify {B} g (f : unit → M B) s : (modify g ≫= f) s = f tt (g s).
Proof. reflexivity. Qed.

Lemma process_image_seen E o w view si fr im i det s :
  seen (process_image E o w view si fr im i det s).2 = S (seen s).
Proof.
  unfold process_image. rewrite bind_modify.
  match goal with
  | |- seen (?m ?s1).2 = _ =>
      assert (Hp : preserves (λ st, seen st = S (seen s)) m)
        by preserves_all leaf_same_field;
      apply (Hp s1)
  end.
  by destruct s.
Qed.

(** What every pass of a loop adds to a measure of the state, the loop adds
    up. *)
Lemma for_each_adds {A} (l : list A) (body : A → M unit) (size : State → nat)
    (weight : A → nat) s s' :
  (∀ x st st', x ∈ l → body x st = (Ok tt, st') → size st' = (size st + weight x)%nat) →
  for_each l body s = (Ok tt, s') →
  size s' = (size s + sum_list (weight <$> l))%nat.
Proof.
  revert s. induction l as [|x l IH]; intros s Hbody Hrun; simpl in *.
  - unfold mret, M_ret in Hrun. simplify_eq. lia.
  - apply bind_ok_inv in Hrun as ([] & s1 & Hx & Hrest).
    rewrite (IH s1); [| intros; eapply Hbody; [by right | done] | done].
    rewrite (Hbody x s s1); [| by left | done].
    change (list_fmap A nat weight l) with (weight <$> l). lia.
Qed.

Lemma imap_pair_snd {A} (l : list A) : (imap pair l).*2 = l.
Proof.
  apply list_eq. intros j. rewrite list_lookup_fmap, list_lookup_imap.
  by destruct (l !! j).
Qed.

Lemma sum_list_ones {A} (l : list A) : sum_list ((λ _, 1%nat) <$> l) = length l.
Proof. induction l; simpl; [done | by f_equal]. Qed.

(** A frame whose processing ends normally, with what suppression gave. *)
Lemma run_frame_ok_inv E o w view si fr s s' :
  run_frame E o w view si fr s = (Ok tt, s') →
  ∃ im, for_each (imap pair (predictions E fr))
          (λ '(i, det), process_image E o w view si fr im i det) s = (Ok tt, s').
Proof.
  unfold run_frame, predictions, lift, mbind at 1 2 3, M_bind at 1 2 3.
  destruct (preprocess E fr) as [im|]; [| done].
  destruct (forward E im) as [raw|]; [| done].
  destruct (non_max_suppression E raw) as [pred|]; [| done]. by exists im.
Qed.

Lemma run_frame_seen E o w view si fr s s' :
  run_frame E o w view si fr s = (Ok tt, s') →
  seen s' = (seen s + batch_size E fr)%nat.
Proof.
  intros [im Hrun]%run_frame_ok_inv.
  apply (for_each_adds _ _ seen (λ _, 1%nat)) in Hrun.
  - rewrite Hrun, sum_list_ones. unfold batch_size. by rewrite length_imap.
  - intros [i det] st st' _ Himg. pose proof (process_image_seen E o w view si fr im i det st) as H.
    rewrite Himg in H. simpl in H. lia.
Qed.

(** X8. A run that ends normally has counted, in [seen], one image for every
    image of every batch the dataset yielded, with or without detections in
    it. *)
Theorem seen_counts_every_image (E : Env) (o : Options) (s s' : State)
    (src : string) (d : Dataset) :
  run E o s = (Ok tt, s') →
  resolve_source E o = Ok src →
  load_dataset E o src = Ok d →
  seen s' = sum_list (batch_size E <$> ds_frames d).
Proof.
  intros Hrun Hsrc Hd. rewrite run_unfold, start_run, Hsrc, Hd in Hrun.
  set (s0 := set_gNum _ _) in Hrun.
  destruct (frames_loop E o (ds_frames d) s0) as [[[]|e] s1] eqn:Hloop; [| done].
  apply (for_each_adds _ _ seen (batch_size E)) in Hloop.
  - rewrite finish_run in Hrun. case_bool_decide; [done |]. simplify_eq.
    assert (seen s0 = 0%nat) as Hs0 by by destruct s.
    rewrite Hs0 in Hloop. by destruct (update o), s1.
  - intros fr st st' _. apply run_frame_seen.
Qed.

(** ** One CSV row for every detection *)

Lemma write_detection_ok_inv E o p txt gn imc view si d s s' :
  write_detection E o p txt gn imc view si d s = (Ok tt, s') →
  s' = detection_effect E o p txt gn imc (si || save_crop o || view) d s.
Proof.
  intros Hrun. destruct (names E !! cls d) as [label|] eqn:Hl.
  - rewrite write_detection_run in Hrun by eauto. by simplify_eq.
  - unfold write_detection, index, mbind at 1, M_bind at 1 in Hrun. by rewrite Hl in Hrun.
Qed.

Lemma write_results_ok_inv E o p txt gn imc view si (l : list Detection) s s' :
  for_each l (write_detection E o p txt gn imc view si) s = (Ok tt, s') →
  s' = foldl (λ st d, detection_effect E o p txt gn imc (si || save_crop o || view) d st) s l.
Proof.
  revert s. induction l as [|d l IH]; intros s Hrun; simpl in *.
  - unfold mret, M_ret in Hrun. by simplify_eq.
  - apply bind_ok_inv in Hrun as ([] & s1 & Hd & Hrest).
    apply write_detection_ok_inv in Hd as ->. by apply IH.
Qed.

Lemma original_outcome w fr i s s2 : (original w fr i s).1 = (original w fr i s2).1.
Proof.
  unfold original, index, raise, mbind, M_bind, mret, M_ret.
  destruct (f_originals fr) as [paths ims|? ?], w; try done.
  destruct (paths !! i); [| done]. by destruct (ims !! i).
Qed.

(** The pieces of an image whose processing ends normally. *)
Lemma process_image_ok_inv E o w view si fr im i (det : list Detection) s s' :
  process_image E o w view si fr im i det s = (Ok tt, s') →
  ∃ raw_p im0 s3,
    (original w fr i s).1 = Ok (raw_p, im0) ∧
    (let p := path_str raw_p in
     let det' := rescale E (im_shape E im) (im_height im0, im_width im0) <$> det in
     let s2 := set_annotator (λ _, im0) (set_seen S s) in
     (det = [] ∧ s3 = s2 ∨
      det ≠ [] ∧ ∃ s4,
        count_classes E det' s2 = (Ok tt, s4) ∧
        s3 = foldl (λ st d, detection_effect E o p (txt_path_of E fr p) (gain im0) im0
                              (si || save_crop o || view) d st) s4 (reverse det')) ∧
     persist E view si fr i p (annotator s3) s3 = (Ok tt, s')).
Proof.
  intros Hrun. unfold process_image in Hrun.
  apply bind_ok_inv in Hrun as ([] & s1 & Hseen & Hrun).
  apply bind_ok_inv in Hrun as ([raw_p im0] & s1' & Horig & Hrun).
  apply bind_ok_inv in Hrun as ([] & s2 & Hann & Hrun).
  apply bind_ok_inv in Hrun as ([] & s3 & Hdet & Hrun).
  apply bind_ok_inv in Hrun as (im1 & s3' & Hget & Hrun).
  unfold modify in Hseen, Hann. unfold gets in Hget. simplify_eq.
  pose proof (original_state w fr i (set_seen S s)) as Ho. rewrite Horig in Ho.
  simpl in Ho. subst s1'.
  exists raw_p, im0, s3'. split.
  { rewrite (original_outcome w fr i s (set_seen S s)). by rewrite Horig. }
  simpl. split; [| done].
  unfold when in Hdet. case_bool_decide as Hne.
  - right. split; [done |].
    apply bind_ok_inv in Hdet as ([] & s4 & Hcount & Hwrite).
    exists s4. split; [done |]. by apply write_results_ok_inv in Hwrite.
  - left. split; [by destruct det; [| destruct Hne] |].
    unfold mret, M_ret in Hdet. by simplify_eq.
Qed.

Lemma count_classes_files E det x :
  preserves (λ s, fs s = x) (count_classes E det).
Proof. preserves_all leaf_same_field. Qed.

Lemma persist_files E view si fr i p im0 x :
  preserves (λ s, fs s = x) (persist E view si fr i p im0).
Proof. preserves_all leaf_same_field. Qed.

Lemma process_image_csv_rows E o w view si fr im i (det : list Detection) s s' :
  save_csv o = true →
  process_image E o w view si fr im i det s = (Ok tt, s') →
  length (contents s' (csv_path E)) = (length (contents s (csv_path E)) + length det)%nat.
Proof.
  intros Hcsv (raw_p & im0 & s3 & _ & Hmid & Hpersist)%process_image_ok_inv.
  simpl in Hmid.
  pose proof (persist_files E view si fr i (path_str raw_p) (annotator s3) _ s3 eq_refl) as Hfs.
  rewrite Hpersist in Hfs. simpl in Hfs. unfold contents. rewrite Hfs.
  destruct Hmid as [[-> ->]|(_ & s4 & Hcount & ->)].
  - destruct s. simpl. lia.
  - pose proof (count_classes_files E
        (rescale E (im_shape E im) (im_height im0, im_width im0) <$> det) _
        (set_annotator (λ _, im0) (set_seen S s)) eq_refl) as H4.
    rewrite Hcount in H4. simpl in H4.
    match goal with
    | |- length (default [] (fs ?st !! _)) = _ =>
        change (length (contents st (csv_path E))
                = (length (default [] (fs s !! csv_path E)) + length det)%nat)
    end.
    rewrite (effects_collect E o _ _ _ _ _ (λ st, contents st (csv_path E))
               (csv_row E (path_str raw_p))); [| intros; by apply effect_csv].
    rewrite length_app, length_fmap, length_reverse, length_fmap.
    unfold contents. rewrite H4. by destruct s.
Qed.

(** X9. With [save_csv], a run that ends normally has added to
    [predictions.csv] exactly one line for every detection of every image it
    processed, and no other line. *)
Theorem csv_has_one_row_per_detection (E : Env) (o : Options) (s s' : State)
    (src : string) (d : Dataset) :
  run E o s = (Ok tt, s') →
  save_csv o = true →
  resolve_source E o = Ok src →
  load_dataset E o src = Ok d →
  length (contents s' (csv_path E))
  = (length (contents s (csv_path E)) + sum_list (detections E <$> ds_frames d))%nat.
Proof.
  intros Hrun Hcsv Hsrc Hd. rewrite run_unfold, start_run, Hsrc, Hd in Hrun.
  set (s0 := set_gNum _ _) in Hrun.
  destruct (frames_loop E o (ds_frames d) s0) as [[[]|e] s1] eqn:Hloop; [| done].
  apply (for_each_adds _ _ (λ st, length (contents st (csv_path E))) (detections E)) in Hloop.
  - rewrite finish_run in Hrun. case_bool_decide; [done |]. simplify_eq.
    assert (contents s0 (csv_path E) = contents s (csv_path E)) as Hs0 by by destruct s.
    rewrite Hs0 in Hloop. rewrite <- Hloop. by destruct (update o), s1.
  - intros fr st st' _ [im Hfr]%run_frame_ok_inv.
    apply (for_each_adds _ _ (λ st, length (contents st (csv_path E))) (λ x, length x.2)) in Hfr.
    + rewrite Hfr. unfold detections. do 2 f_equal.
      rewrite <- (imap_pair_snd (predictions E fr)) at 2.
      by rewrite <- list_fmap_compose.
    + intros [i det] st1 st2 _ Himg. by apply process_image_csv_rows in Himg.
Qed.

(** ** The counts of an image *)

Lemma count_class_cons c d (det : list Detection) :
  count_class c (d :: det) = ((if decide (cls d = c) then 1 else 0) + count_class c det)%nat.
Proof. unfold count_class. rewrite filter_cons. by destruct (decide (cls d = c)). Qed.

Lemma sum_indicator (x : nat) (cs : list nat) :
  NoDup cs → x ∈ cs →
  sum_list ((λ c, if decide (x = c) then 1%nat else 0%nat) <$> cs) = 1%nat.
Proof.
  induction 1 as [|c cs Hc Hnd IH]; intros Hx; [by apply elem_of_nil in Hx |].
  rewrite fmap_cons. simpl. apply elem_of_cons in Hx as [->|Hx].
  - rewrite decide_True by done. f_equal.
    clear IH Hnd. induction cs as [|c' cs IH]; [done |].
    apply not_elem_of_cons in Hc as [Hne Hc]. rewrite fmap_cons. simpl.
    rewrite decide_False by done. by apply IH.
  - rewrite decide_False by (intros ->; done). by apply IH.
Qed.

Lemma sum_list_fmap_add {A} (f g : A → nat) (l : list A) :
  sum_list ((λ x, f x + g x)%nat <$> l) = (sum_list (f <$> l) + sum_list (g <$> l))%nat.
Proof. induction l as [|x l IH]; [done |]. rewrite !fmap_cons. simpl. rewrite IH. lia. Qed.

(** X10. The counts taken for the classes of an image (one per distinct
    class, lines 251-252) add up to the number of its detections: every
    detection is counted once, under its own class. *)
Theorem class_counts_add_up (det : list Detection) :
  sum_list ((λ c, count_class c det) <$> unique (cls <$> det)) = length det.
Proof.
  assert (H : ∀ cs, NoDup cs → (∀ d, d ∈ det → cls d ∈ cs) →
            sum_list ((λ c, count_class c det) <$> cs) = length det).
  { induction det as [|d det IH]; intros cs Hnd Hin.
    - induction cs as [|c cs IHc]; [done |]. rewrite fmap_cons. simpl.
      apply IHc; [by apply NoDup_cons in Hnd as [_ ?] | by intros ? ?%elem_of_nil].
    - erewrite (list_fmap_ext _ (λ c, ((if decide (cls d = c) then 1 else 0)
                                       + count_class c det)%nat)) by (intros; apply count_class_cons).
      rewrite sum_list_fmap_add, sum_indicator by (done || apply Hin; left).
      simpl. f_equal. apply IH; [done |]. intros d' Hd'. apply Hin. by right. }
  apply H; [apply NoDup_unique |].
  intros d Hd. apply elem_of_unique. by apply list_elem_of_fmap_2.
Qed.

(** ** Classes without an entry or a name *)

Lemma count_loop_raises E (n : nat → nat) cs s c :
  c ∈ cs → (length (gNum s) ≤ c)%nat ∨ names E !! c = None →
  (for_each cs (λ c, gNum_set c (JStr (pretty (n c))) ;;
                     _ ← index (names E) c; mret tt) s).1 = Raised IndexError.
Proof.
  revert s. induction cs as [|c0 cs IH]; intros s Hc Hbad; [by apply elem_of_nil in Hc |].
  simpl. destruct (decide (c0 < length (gNum s))%nat) as [Hlt|Hge].
  - destruct (names E !! c0) as [nm|] eqn:Hnm.
    + erewrite bind_ok.
      2:{ unfold gNum_set, gets, modify, index, mbind, M_bind, mret, M_ret.
          rewrite bool_decide_eq_true_2 by done. by rewrite Hnm. }
      apply IH.
      * apply elem_of_cons in Hc as [->|Hc]; [| done].
        destruct Hbad as [?|?]; [lia | congruence].
      * destruct s. simpl in *. by rewrite length_insert.
    + erewrite bind_raised; [done |].
      unfold gNum_set, gets, modify, index, raise, mbind, M_bind, mret, M_ret.
      rewrite bool_decide_eq_true_2 by done. by rewrite Hnm.
  - erewrite bind_raised; [done |].
    unfold gNum_set, gets, modify, index, raise, mbind, M_bind, mret, M_ret.
    by rewrite bool_decide_eq_false_2.
Qed.

Lemma count_classes_quiet E det (P : State → Prop) :
  (∀ f s, P s → P (set_gNum f s)) → preserves P (count_classes E det).
Proof. intros HP. preserves_all ltac:(intros; by apply HP). Qed.

(** X11. An image with a detection whose class index has no entry in the
    count table, or no name, ends in an index error before anything is
    exported for it: no line is written, no call is made and nothing is
    printed; the image has been counted in [seen]. *)
Theorem class_out_of_range_raises (E : Env) (o : Options) w view si fr im i
    (det : list Detection) (s : State) raw_p im0 c :
  (original w fr i s).1 = Ok (raw_p, im0) →
  c ∈ cls <$> det →
  (length (gNum s) ≤ c)%nat ∨ names E !! c = None →
  (process_image E o w view si fr im i det s).1 = Raised IndexError ∧
  fs (process_image E o w view si fr im i det s).2 = fs s ∧
  calls (process_image E o w view si fr im i det s).2 = calls s ∧
  stdout (process_image E o w view si fr im i det s).2 = stdout s ∧
  seen (process_image E o w view si fr im i det s).2 = S (seen s).
Proof.
  intros Ho Hc Hbad.
  assert (Hne : det ≠ []) by (intros ->; by apply elem_of_nil in Hc).
  rewrite (process_image_steps E o w view si fr im i det s raw_p im0 Ho Hne).
  set (det' := rescale E _ _ <$> det). set (s2 := set_annotator _ _).
  assert (Hr : (count_classes E det' s2).1 = Raised IndexError).
  { apply (count_loop_raises E _ _ s2 c); [| by destruct s].
    apply elem_of_unique. unfold det'. by rewrite cls_rescale. }
  pose proof (λ P HP, count_classes_quiet E det' P HP s2) as Hq.
  destruct (count_classes E det' s2) as [r s4] eqn:Hcc. simpl in *. subst r.
  rewrite (bind_raised _ _ s2 IndexError s4 Hcc). simpl.
  repeat split.
  - by apply (Hq (λ st, fs st = fs s)); [| destruct s].
  - by apply (Hq (λ st, calls st = calls s)); [| destruct s].
  - by apply (Hq (λ st, stdout st = stdout s)); [| destruct s].
  - by apply (Hq (λ st, seen st = S (seen s))); [| destruct s].
Qed.

(** X12. A run in which suppression returns a detection of class index three
    or more does not end normally and prints no summary: the count table has
    three entries only. *)
Theorem fourth_class_ends_run (E : Env) (o : Options) (s s' : State) r
    (src : string) (d : Dataset) (fr : Frame) (c : nat) :
  run E o s = (r, s') →
  resolve_source E o = Ok src →
  load_dataset E o src = Ok d →
  fr ∈ ds_frames d → observed E fr c → (3 ≤ c)%nat →
  (∃ e, r = Raised e) ∧ stdout s' = stdout s.
Proof.
  intros Hrun Hsrc Hd Hfr Hobs Hc. rewrite run_unfold, start_run, Hsrc, Hd in Hrun.
  set (s0 := set_gNum _ _) in Hrun.
  pose proof (frames_loop_stdout E o (ds_frames d) s0) as Hout.
  pose proof (frames_loop_count_shape E o (ds_frames d) s0) as Hshape.
  pose proof (frames_loop_observed E o (ds_frames d) c s0) as Hseen.
  destruct (frames_loop E o (ds_frames d) s0) as [[[]|e] s1].
  - exfalso. destruct (Hseen s1 eq_refl) as (k & _ & Hk); [by exists fr |].
    destruct Hshape as [Hlen _].
    { split; [done |]. intros [|[|[|?]]] v Hv; simplify_eq/=; by left. }
    simpl in Hlen. apply lookup_lt_Some in Hk. lia.
  - simplify_eq. split; [by eexists |]. simpl in Hout. by destruct s.
Qed.

(** ** The display flag of a live source *)

(** X14. For a live source (a numeric string, a stream list, or a stream
    URL) the argument [view_img] is not read: the run is the same whatever
    its value, since the flag is replaced by what [check_imshow] answers. *)
Theorem view_img_ignored_for_live_sources (E : Env) (o : Options) (v : bool) (s : State) :
  webcam E (source o) = true →
  run E (with_view_img v o) s = run E o s.
Proof.
  intros Hw. rewrite !run_unfold.
  change (start E (with_view_img v o) s) with (start E o s).
  destruct (start E o s) as [[d|e] s0]; [| done].
  assert (Hloop : frames_loop E (with_view_img v o) (ds_frames d) s0
                  = frames_loop E o (ds_frames d) s0).
  { unfold frames_loop, view_flag. simpl. rewrite Hw. reflexivity. }
  rewrite Hloop. destruct (frames_loop E o (ds_frames d) s0) as [[[]|e] s1]; [| done].
  reflexivity.
Qed.

(** ** Label files of a video *)

(** X13. For a video or a stream, the label file of a frame carries the
    frame number after the stem, so two frames of one source share a label
    file only when they have the same number. *)
Theorem label_files_differ_by_frame (E : Env) (fr1 fr2 : Frame) (p : string) :
  f_mode fr1 ≠ ModeImage → f_mode fr2 ≠ ModeImage →
  txt_path_of E fr1 p = txt_path_of E fr2 p →
  f_count fr1 = f_count fr2.
Proof.
  intros H1 H2. unfold txt_path_of. rewrite !bool_decide_eq_false_2 by done.
  intros Heq. apply (inj (String.app _)) in Heq. apply (inj (String.app _)) in Heq.
  by apply (inj pretty) in Heq.
Qed.

(** ** The command line *)

(** X15. After [parse_opt], a single image size has become a pair of that
    size twice, any other list of sizes is as given, the list never has
    exactly one entry, and expanding again changes nothing. *)
Theorem imgsz_expanded (imgsz : list Z) :
  (∀ x, imgsz = [x] → expand_imgsz imgsz = [x; x]) ∧
  (length imgsz ≠ 1%nat → expand_imgsz imgsz = imgsz) ∧
  length (expand_imgsz imgsz) ≠ 1%nat ∧
  expand_imgsz (expand_imgsz imgsz) = expand_imgsz imgsz.
Proof.
  assert (Hsame : ∀ l : list Z, length l ≠ 1%nat → expand_imgsz l = l).
  { intros l Hl. unfold expand_imgsz, list_mul. rewrite bool_decide_eq_false_2 by done.
    simpl. apply app_nil_r. }
  destruct (decide (length imgsz = 1%nat)) as [H1|Hn].
  - destruct imgsz as [|x [|? ?]]; try done.
    repeat split; try done.
    intros y ?. by simplify_eq.
  - rewrite (Hsame imgsz Hn). repeat split; try done.
    + intros x ->. done.
    + by apply Hsame.
Qed.

(** X16. The attributes [parse_opt] stores are the parameters of [run], in
    the same order, one attribute for each parameter: [main] passes no
    keyword [run] does not take, passes none twice and leaves none to its
    default. *)
Theorem parsed_options_fit_run :
  Argparse.dest <$> parse_opt_arguments = run_parameters ∧
  keywords_accepted (Argparse.dest <$> parse_opt_arguments) run_parameters.
Proof.
  assert (H : Argparse.dest <$> parse_opt_arguments = run_parameters)
    by (vm_compute; reflexivity).
  split; [exact H |]. rewrite H. split; [| done].
  refine (bool_decide_unpack (NoDup run_parameters) _). vm_compute. exact I.
Qed.

(** ** One image of an image source, from end to end *)

Section Folded.
Context (E : Env) (o : Options) (p txt : string) (gn : list Q) (imc : Image).

Lemma annotated_nil im0 : annotated E o im0 [] = im0.
Proof. destruct im0. unfold annotated. simpl. by rewrite app_nil_r. Qed.

Lemma effects_annotator l s :
  annotator (foldl (λ st d, detection_effect E o p txt gn imc true d st) s l)
  = annotated E o (annotator s) l.
Proof.
  revert s. induction l as [|d l IH]; intros s; simpl; [by rewrite annotated_nil |].
  rewrite IH. unfold detection_effect, append_to, annotated.
  destruct s, (save_csv o), (save_txt o), (save_crop o); simpl;
    by rewrite <- (assoc_L (++)).
Qed.

Lemma effects_calls l s :
  calls (foldl (λ st d, detection_effect E o p txt gn imc true d st) s l)
  = calls s ++ (if save_crop o then crop_call E p imc <$> l else []).
Proof.
  destruct (save_crop o) eqn:Hcrop.
  - apply (effects_collect E o p txt gn imc true calls). intros. by apply effect_crop.
  - rewrite app_nil_r. revert s. induction l as [|d l IH]; intros s; simpl; [done |].
    rewrite IH. unfold detection_effect, append_to. rewrite Hcrop.
    by destruct s, (save_csv o), (save_txt o).
Qed.

End Folded.

(** X17. For an image source with saving on and display off, an image whose
    processing ends normally adds to the log of calls the crops of its
    detections (with [save_crop]), each cut from the original image without
    any box on it, and then one [imwrite] at the run directory under the
    file name of the source, of the original image with the boxes of all its
    detections, last detection first. *)
Theorem image_saved_with_all_boxes (E : Env) (o : Options) fr im i
    (det : list Detection) (s s' : State) raw_p im0 :
  process_image E o false false true fr im i det s = (Ok tt, s') →
  f_originals fr = Single raw_p im0 →
  f_mode fr = ModeImage →
  let p := path_str raw_p in
  let det' := rescale E (im_shape E im) (im_height im0, im_width im0) <$> det in
  calls s' = calls s
             ++ (if save_crop o then crop_call E p im0 <$> reverse det' else [])
             ++ [Imwrite (Path.join (save_dir E) (Path.name p))
                   (annotated E o im0 (reverse det'))].
Proof.
  intros Hrun Hsingle Hmode p det'.
  apply process_image_ok_inv in Hrun as (raw_p' & im0' & s3 & Ho & Hmid & Hpersist).
  assert (raw_p' = raw_p ∧ im0' = im0) as [-> ->].
  { revert Ho. unfold original. rewrite Hsingle. simpl. intros ?. by simplify_eq. }
  simpl in Hmid. fold p in Hmid, Hpersist. fold det' in Hmid.
  assert (Hs3 : calls s3 = calls s
                  ++ (if save_crop o then crop_call E p im0 <$> reverse det' else []) ∧
                annotator s3 = annotated E o im0 (reverse det')).
  { destruct Hmid as [[Hdet ->]|(_ & s4 & Hcount & ->)].
    - assert (det' = []) as -> by (unfold det'; by rewrite Hdet).
      rewrite reverse_nil, annotated_nil. destruct s, (save_crop o); simpl;
        by rewrite ?app_nil_r.
    - pose proof (λ P HP, count_classes_quiet E det' P HP
                    (set_annotator (λ _, im0) (set_seen S s))) as Hq.
      rewrite Hcount in Hq. simpl in Hq.
      rewrite effects_calls, effects_annotator.
      rewrite (Hq (λ st, calls st = calls s)) by (by destruct s).
      by rewrite (Hq (λ st, annotator st = im0)) by (by destruct s). }
  destruct Hs3 as [Hcalls Hann]. rewrite Hann in Hpersist.
  revert Hpersist. unfold persist, when, call, modify, mbind, M_bind, mret, M_ret.
  rewrite bool_decide_eq_true_2 by done. intros ?. simplify_eq.
  destruct s3. simpl in *. rewrite Hcalls. by rewrite <- (assoc_L (++)).
Qed.

(** ** A source that cannot be opened *)

(** X18. When the download of a file URL or the opening of the dataset
    raises, the run raises the same exception before its loop: no line has
    been written to a label file or to the CSV file, no image written, shown
    or cropped, no writer opened, nothing printed, and the counters and the
    registry are not even initialised. *)
Theorem unopened_source_changes_nothing (E : Env) (o : Options) (s : State) (e : exn) :
  resolve_source E o = Raised e ∨
  (∃ src, resolve_source E o = Ok src ∧ load_dataset E o src = Raised e) →
  run E o s = (Raised e, s).
Proof.
  intros [Hr|(src & Hr & Hl)]; rewrite run_unfold, start_run, Hr; [done |].
  by rewrite Hl.
Qed.

(** ** Labels in corner format *)



(** ** File URLs *)

Lemma split_nonempty sep s : Str.split sep s ≠ [].
Proof.
  destruct s as [|c s]; simpl; [done |].
  destruct (Ascii.eqb c sep); [done |]. by destruct (Str.split sep s).
Qed.

Lemma last_cons_nonempty {A} (x d : A) (l : list A) :
  l ≠ [] → List.last (x :: l) d = List.last l d.
Proof. by destruct l. Qed.

Lemma split_last_keeps_ending r :
  ∃ n, List.last (Str.split "/" (r +:+ ".streams")) "" = n +:+ ".streams".
Proof.
  induction r as [|c r [n IH]]; [by exists "" |].
  rewrite app_cons. simpl Str.split.
  destruct (Ascii.eqb c "/").
  - exists n. rewrite last_cons_nonempty by apply split_nonempty. exact IH.
  - destruct (Str.split "/" (r +:+ ".streams")) as [|w [|w' ws]] eqn:Hsplit.
    + by apply split_nonempty in Hsplit.
    + exists (String c n). simpl in *. by rewrite IH.
    + exists n. exact IH.
Qed.

Lemma last_filter {A} (P : A → Prop) `{∀ x, Decision (P x)} (l : list A) (d : A) :
  l ≠ [] → P (List.last l d) → List.last (filter P l) d = List.last l d.
Proof.
  destruct l as [|a l _] using rev_ind; [done |]. intros _.
  rewrite List.last_last. intros Ha.
  by rewrite filter_app, filter_cons_True, filter_nil, List.last_last.
Qed.

Lemma name_keeps_ending r : ∃ n, Path.name (r +:+ ".streams") = n +:+ ".streams".
Proof.
  destruct (split_last_keeps_ending r) as [n Hn]. exists n.
  unfold Path.name, Path.parts. rewrite last_filter; [done | apply split_nonempty |].
  rewrite Hn. by destruct n as [|a [|b n]].
Qed.

Lemma rfind_ending n : Str.rfind "." (n +:+ ".streams") = Some (String.length n).
Proof.
  induction n as [|a n IH]; [done |]. rewrite app_cons. simpl. by rewrite IH.
Qed.

Lemma length_ending n : String.length (n +:+ ".streams") = (String.length n + 8)%nat.
Proof. induction n as [|a n IH]; [done |]. rewrite app_cons. simpl. by rewrite IH. Qed.

Lemma drop_ending n t : Str.drop (String.length n) (n +:+ t) = t.
Proof. induction n as [|a n IH]; [by destruct t |]. by rewrite app_cons. Qed.

(** The extension of a path that ends in [.streams] is [streams], or empty
    when that ending is the whole name. *)
Lemma streams_extension s :
  Str.endswith s ".streams" = true →
  Str.drop 1 (Path.suffix s) = "streams" ∨ Str.drop 1 (Path.suffix s) = "".
Proof.
  intros [r ->]%endswith_spec. unfold Path.suffix, Path.suffix_at.
  destruct (name_keeps_ending r) as [n ->].
  rewrite rfind_ending, length_ending.
  destruct n as [|a n]; [by right | left].
  replace ((0 <? String.length (String a n))%nat &&
           (String.length (String a n) <? String.length (String a n) + 8 - 1)%nat)
    with true.
  - by rewrite drop_ending.
  - symmetry. apply andb_true_iff. split; apply Nat.ltb_lt; simpl; lia.
Qed.

Lemma lower_r_h_not_numeric c :
  Str.lower_char c = "r"%char ∨ Str.lower_char c = "h"%char →
  Str.numeric_char c = false ∧ Str.lower_char c ≠ "s"%char.
Proof.
  destruct c as [[] [] [] [] [] [] [] []]; vm_compute; intros [?|?]; by try split.
Qed.

Lemma startswith_cons a p b s :
  Str.startswith (String b s) (String a p)
  = if Ascii.eqb a b then Str.startswith s p else false.
Proof. reflexivity. Qed.

Lemma url_first_char s :
  is_url s = true →
  ∃ c s', s = String c s' ∧ (Str.lower_char c = "r"%char ∨ Str.lower_char c = "h"%char).
Proof.
  unfold is_url, Str.startswith_any, url_schemes. simpl existsb.
  destruct s as [|c s']; [done |]. intros H. exists c, s'. split; [done |].
  change (Str.lower (String c s')) with (String (Str.lower_char c) (Str.lower s')) in H.
  rewrite !startswith_cons in H.
  destruct (Ascii.eqb_spec "r" (Str.lower_char c)) as [<-|?]; [by left |].
  destruct (Ascii.eqb_spec "h" (Str.lower_char c)) as [<-|?]; [by right |].
  done.
Qed.

(** X20. A network URL that names an image or a video file is downloaded by
    [check_file] and the copy is then read by the file loader: such a source
    is never opened as a stream and never taken for a screen capture, and
    the batch size stays 1. The format tables are assumed to hold neither
    the empty extension nor [streams]. *)
Theorem file_url_downloaded_then_loaded (E : Env) (o : Options) :
  is_url (source o) = true → is_file E (source o) = true →
  "" ∉ IMG_FORMATS E ++ VID_FORMATS E →
  "streams" ∉ IMG_FORMATS E ++ VID_FORMATS E →
  webcam E (source o) = false ∧
  resolve_source E o = check_file E (source o) ∧
  ∀ src, load_dataset E o src = LoadImages E src.
Proof.
  intros Hurl Hfile Hempty Hstreams.
  destruct (url_first_char _ Hurl) as (c & s' & Hs & Hc).
  destruct (lower_r_h_not_numeric c Hc) as [Hnum Hscreen].
  assert (Hweb : webcam E (source o) = false).
  { unfold webcam. rewrite Hurl, Hfile. simpl. rewrite orb_false_r.
    apply orb_false_iff. split.
    - rewrite Hs. unfold Str.isnumeric.
      change (Str.all_chars Str.numeric_char (String c s'))
        with (Str.numeric_char c && Str.all_chars Str.numeric_char s').
      by rewrite Hnum.
    - destruct (Str.endswith (source o) ".streams") eqn:Hend; [| done].
      apply bool_decide_eq_true in Hfile.
      destruct (streams_extension _ Hend) as [Hx|Hx]; rewrite Hx in Hfile; done. }
  split; [exact Hweb |]. split.
  - unfold resolve_source. by rewrite Hurl, Hfile.
  - intros src. unfold load_dataset, loader. rewrite Hweb.
    unfold screenshot. rewrite Hs.
    change (Str.lower (String c s')) with (String (Str.lower_char c) (Str.lower s')).
    rewrite startswith_cons.
    destruct (Ascii.eqb_spec "s" (Str.lower_char c)) as [Heq|?]; [by symmetry in Heq | done].
Qed.

(** ** The further properties on the sample runs *)

Lemma nothing_saved_without_save_img_witness :
  save_img_flag Scenes.unsaved = false ∧
  saving_calls (calls (run Sample.one_photo Scenes.unsaved initial).2)
  = saving_calls (calls initial).
Proof.
  split; [reflexivity |].
  apply (nothing_saved_without_save_img Sample.one_photo Scenes.unsaved initial).
  reflexivity.
Defined.

Lemma csv_untouched_without_save_csv_witness :
  save_csv Scenes.labels_only = false ∧
  fs (run Sample.one_photo Scenes.labels_only initial).2 !! csv_path Sample.one_photo
  = fs initial !! csv_path Sample.one_photo.
Proof.
  split; [reflexivity |].
  apply (csv_untouched_without_save_csv Sample.one_photo Scenes.labels_only initial).
  reflexivity.
Defined.

Lemma no_text_files_without_export_flags_witness :
  fs (run Sample.one_clip Sample.clip_options initial).2 = fs initial.
Proof.
  apply (no_text_files_without_export_flags Sample.one_clip Sample.clip_options initial);
    reflexivity.
Defined.


Lemma result_videos_are_mp4_witness :
  Forall mp4_writer (calls (run Sample.one_clip Sample.clip_options initial).2).
Proof.
  apply (result_videos_are_mp4 Sample.one_clip Sample.clip_options initial).
  simpl. apply Forall_nil_2.
Defined.

Lemma windows_created_once_witness :
  NoDup (named_windows (calls (run Sample.one_clip Scenes.shown initial).2)) ∧
  (is_linux Sample.one_clip = false →
   named_windows (calls (run Sample.one_clip Scenes.shown initial).2) = []).
Proof.
  apply (windows_created_once Sample.one_clip Scenes.shown initial). reflexivity.
Defined.

Lemma registry_slots_kept_witness :
  slots_ok 1
    (frames_loop Sample.one_clip Sample.clip_options [Sample.film 1; Sample.film 2]
       (start Sample.one_clip Sample.clip_options initial).2).2 ∧
  (save_video 0 "temp/output/pond.mp4" (Some Sample.camera) Sample.picture
     (frames_loop Sample.one_clip Sample.clip_options [Sample.film 1; Sample.film 2]
        (start Sample.one_clip Sample.clip_options initial).2).2).1 = Ok tt.
Proof.
  apply (registry_slots_kept Sample.one_clip Sample.clip_options initial
           (start Sample.one_clip Sample.clip_options initial).2
           {| ds_len := 1; ds_frames := [Sample.film 1; Sample.film 2] |}
           [Sample.film 1; Sample.film 2] 0).
  - vm_compute; reflexivity.
  - simpl. lia.
Defined.

Lemma seen_counts_every_image_witness :
  run Sample.one_clip Sample.clip_options initial
  = (Ok tt, (run Sample.one_clip Sample.clip_options initial).2) ∧
  seen (run Sample.one_clip Sample.clip_options initial).2 = 2%nat.
Proof.
  assert (Hrun : run Sample.one_clip Sample.clip_options initial
                 = (Ok tt, (run Sample.one_clip Sample.clip_options initial).2)).
  { vm_compute; reflexivity. }
  split; [exact Hrun |].
  apply (seen_counts_every_image Sample.one_clip Sample.clip_options initial _
           "clips/pond.avi" {| ds_len := 1; ds_frames := [Sample.film 1; Sample.film 2] |} Hrun).
  - vm_compute; reflexivity.
  - vm_compute; reflexivity.
Defined.

Lemma csv_has_one_row_per_detection_witness :
  run Sample.one_photo Sample.photo_options initial
  = (Ok tt, (run Sample.one_photo Sample.photo_options initial).2) ∧
  length (contents (run Sample.one_photo Sample.photo_options initial).2
            (csv_path Sample.one_photo)) = 1%nat.
Proof.
  assert (Hrun : run Sample.one_photo Sample.photo_options initial
                 = (Ok tt, (run Sample.one_photo Sample.photo_options initial).2)).
  { vm_compute; reflexivity. }
  split; [exact Hrun |].
  apply (csv_has_one_row_per_detection Sample.one_photo Sample.photo_options initial _
           Sample.pond {| ds_len := 1; ds_frames := [Sample.photo 1 Sample.pond] |} Hrun).
  - reflexivity.
  - vm_compute; reflexivity.
  - vm_compute; reflexivity.
Defined.

Lemma class_out_of_range_raises_witness :
  (process_image Sample.one_photo Sample.photo_options false false true
     (Sample.photo 1 Sample.pond) (Sample.photo 1 Sample.pond) 0
     [Sample.goose; Scenes.swan] Sample.counted).1 = Raised IndexError ∧
  fs (process_image Sample.one_photo Sample.photo_options false false true
        (Sample.photo 1 Sample.pond) (Sample.photo 1 Sample.pond) 0
        [Sample.goose; Scenes.swan] Sample.counted).2 = fs Sample.counted.
Proof.
  destruct (class_out_of_range_raises Sample.one_photo Sample.photo_options false false true
              (Sample.photo 1 Sample.pond) (Sample.photo 1 Sample.pond) 0
              [Sample.goose; Scenes.swan] Sample.counted Sample.pond
              {| im_height := 480; im_width := 640; im_pixels := 1; im_drawn := [] |} 3)
    as (Hraised & Hfs & _).
  - reflexivity.
  - apply list_elem_of_In. simpl. tauto.
  - left. simpl. lia.
  - split; [exact Hraised | exact Hfs].
Defined.

Lemma fourth_class_ends_run_witness :
  (∃ e, (run Scenes.four_classes Sample.photo_options initial).1 = Raised e) ∧
  stdout (run Scenes.four_classes Sample.photo_options initial).2 = stdout initial.
Proof.
  apply (fourth_class_ends_run Scenes.four_classes Sample.photo_options initial _ _
           Sample.pond {| ds_len := 1; ds_frames := [Sample.photo 1 Sample.pond] |}
           (Sample.photo 1 Sample.pond) 3).
  - vm_compute; reflexivity.
  - vm_compute; reflexivity.
  - vm_compute; reflexivity.
  - apply list_elem_of_In. simpl. tauto.
  - exists (Sample.photo 1 Sample.pond), (Sample.photo 1 Sample.pond),
      [[Sample.goose; Scenes.swan]], [Sample.goose; Scenes.swan].
    repeat split; try reflexivity; apply list_elem_of_In; simpl; tauto.
  - lia.
Defined.

Lemma label_files_differ_by_frame_witness :
  txt_path_of Sample.one_clip (Sample.film 1) "clips/pond.avi"
  = txt_path_of Sample.one_clip (Scenes.live 1) "clips/pond.avi" ∧
  f_count (Sample.film 1) = f_count (Scenes.live 1).
Proof.
  split; [vm_compute; reflexivity |].
  apply (label_files_differ_by_frame Sample.one_clip (Sample.film 1) (Scenes.live 1)
           "clips/pond.avi").
  - discriminate.
  - discriminate.
  - vm_compute; reflexivity.
Defined.

Lemma view_img_ignored_for_live_sources_witness :
  webcam Scenes.barn_camera (source Scenes.camera_options) = true ∧
  run Scenes.barn_camera (with_view_img true Scenes.camera_options) initial
  = run Scenes.barn_camera Scenes.camera_options initial.
Proof.
  split; [reflexivity |].
  apply (view_img_ignored_for_live_sources Scenes.barn_camera Scenes.camera_options true initial).
  reflexivity.
Defined.

Lemma imgsz_expanded_witness : expand_imgsz [640] = [640; 640].
Proof. apply (proj1 (imgsz_expanded [640]) 640). reflexivity. Defined.

Lemma image_saved_with_all_boxes_witness :
  calls (process_image Sample.one_photo Sample.photo_options false false true
           (Sample.photo 1 Sample.pond) (Sample.photo 1 Sample.pond) 0
           [Sample.goose; Sample.egg] Sample.counted).2
  = [Imwrite "temp/output/pond.jpg"
       (annotated Sample.one_photo Sample.photo_options
          {| im_height := 480; im_width := 640; im_pixels := 1; im_drawn := [] |}
          [Sample.egg; Sample.goose])].
Proof.
  assert (Hrun :
    process_image Sample.one_photo Sample.photo_options false false true
      (Sample.photo 1 Sample.pond) (Sample.photo 1 Sample.pond) 0
      [Sample.goose; Sample.egg] Sample.counted
    = (Ok tt,
       (process_image Sample.one_photo Sample.photo_options false false true
          (Sample.photo 1 Sample.pond) (Sample.photo 1 Sample.pond) 0
          [Sample.goose; Sample.egg] Sample.counted).2)).
  { vm_compute; reflexivity. }
  rewrite (image_saved_with_all_boxes Sample.one_photo Sample.photo_options
             (Sample.photo 1 Sample.pond) (Sample.photo 1 Sample.pond) 0
             [Sample.goose; Sample.egg] Sample.counted _ Sample.pond
             {| im_height := 480; im_width := 640; im_pixels := 1; im_drawn := [] |} Hrun).
  - vm_compute; reflexivity.
  - reflexivity.
  - reflexivity.
Defined.

Lemma unopened_source_changes_nothing_witness :
  run Scenes.missing Sample.photo_options initial
  = (Raised (External "no images or videos found"), initial).
Proof.
  apply (unopened_source_changes_nothing Scenes.missing Sample.photo_options initial).
  right. exists Sample.pond. split; reflexivity.
Defined.


Lemma file_url_downloaded_then_loaded_witness :
  webcam Sample.one_photo (source Scenes.url_options) = false ∧
  resolve_source Sample.one_photo Scenes.url_options
  = check_file Sample.one_photo (source Scenes.url_options) ∧
  ∀ src, load_dataset Sample.one_photo Scenes.url_options src
         = LoadImages Sample.one_photo src.
Proof.
  apply (file_url_downloaded_then_loaded Sample.one_photo Scenes.url_options).
  - reflexivity.
  - reflexivity.
  - intros H%list_elem_of_In. simpl in H. intuition discriminate.
  - intros H%list_elem_of_In. simpl in H. intuition discriminate.
Defined.
